(** * star_bot: the ledger store of [src/db/database.py]

    A shallow embedding of the [Database] class: the four relations of
    [CREATE_SQL], the SQL statements each method issues, and the
    connection discipline (BEGIN / commit / rollback / close) the methods
    follow.

    Conventions.
    - SQLite INTEGER values and Python ints are integers of [Z]; TEXT is
      [string]; a nullable column is an [option].  SQLite keeps an
      INTEGER in 64 bits; the model is about values in that range, where
      its arithmetic is exact.
    - Calls are taken one at a time: each opens its own connection on the
      store the previous call left, as SQLite serialises writers.
    - [datetime('now')] yields the fixed-width text YYYY-MM-DD HH:MM:SS,
      whose text order is the chronological order; a timestamp is the
      number of seconds it denotes.  Every method call reads the store's
      clock once ([now]).
    - A table with an AUTOINCREMENT key is the list of its rows in
      insertion order; no method deletes a row, so the next key is one
      more than the largest key present.  [users], whose key is the
      caller's [user_id], is a finite map. *)

From stdpp Require Import gmap strings list sorting pretty.

Open Scope Z_scope.

(** ** Relations *)

Record user_row := UserRow {
  username : option string;
  balance : Z;
  u_created_at : Z;
  u_updated_at : Z
}.

Record payment_row := PaymentRow {
  p_id : Z;
  p_user_id : Z;
  p_amount : Z;
  p_currency : string;
  p_charge_id : string;
  p_refunded : Z;
  p_created_at : Z
}.

Record transfer_row := TransferRow {
  t_id : Z;
  t_from_user_id : Z;
  t_to_user_id : Z;
  t_amount : Z;
  t_created_at : Z
}.

(** [type TEXT NOT NULL CHECK(type IN ('purchase','gift_in','gift_out','refund'))] *)
Inductive tx_type := purchase | gift_in | gift_out | refund.

Record tx_row := TxRow {
  tx_id : Z;
  tx_user_id : Z;
  tx_kind : tx_type;
  tx_amount : Z;
  tx_related_user_id : option Z;
  tx_charge_id : option string;
  tx_description : option string;
  tx_balance_after : option Z;
  tx_created_at : Z
}.

Record db := Db {
  users : gmap Z user_row;
  payments : list payment_row;
  transfers : list transfer_row;
  transactions : list tx_row
}.

Definition empty_db : db := Db ∅ [] [] [].

#[global] Instance tx_type_eq_dec : EqDecision tx_type.
Proof. solve_decision. Defined.
#[global] Instance user_row_eq_dec : EqDecision user_row.
Proof. solve_decision. Defined.
#[global] Instance payment_row_eq_dec : EqDecision payment_row.
Proof. solve_decision. Defined.
#[global] Instance transfer_row_eq_dec : EqDecision transfer_row.
Proof. solve_decision. Defined.
#[global] Instance tx_row_eq_dec : EqDecision tx_row.
Proof. solve_decision. Defined.

(** ** Connections

    A connection sees a working copy of the store.  [commit] publishes
    the working copy, [rollback] discards it, and closing the connection
    ([finally: await conn.close()]) leaves the store at the last commit.
    A raised exception skips the rest of the method body. *)

Inductive exn :=
  | ValueError (msg : string)
  | IntegrityError (msg : string).

Inductive outcome (A : Type) :=
  | Return (a : A)
  | Raise (e : exn).
Arguments Return {A} a.
Arguments Raise {A} e.

Record conn := Conn { committed : db; working : db }.

Definition sql (A : Type) : Type := conn → outcome A * conn.

Definition ret {A} (a : A) : sql A := λ c, (Return a, c).

Definition bind {A B} (m : sql A) (k : A → sql B) : sql B :=
  λ c, match m c with
       | (Return a, c') => k a c'
       | (Raise e, c') => (Raise e, c')
       end.

Definition raise {A} (e : exn) : sql A := λ c, (Raise e, c).

Declare Scope sql_scope.
Delimit Scope sql_scope with sql.
Notation "'do' x <- m 'in' k" := (bind m (λ x, k))
  (at level 10, x name, m at level 100, k at level 200) : sql_scope.
Notation "m ';;' k" := (bind m (λ _, k))
  (at level 100, k at level 200, right associativity) : sql_scope.

Definition query {A} (f : db → A) : sql A := λ c, (Return (f (working c)), c).

Definition commit : sql unit := λ c, (Return tt, Conn (working c) (working c)).
Definition rollback : sql unit := λ c, (Return tt, Conn (committed c) (committed c)).

(** [conn = await self._connect(); try: body finally: await conn.close()] *)
Definition with_connection {A} (body : sql A) (s : db) : outcome A * db :=
  let '(r, c) := body (Conn s s) in (r, committed c).

(** Running a statement on the working copy; a failing statement raises
    and leaves the working copy as it was. *)
Definition statement {A} (f : db → outcome (A * db)) : sql A :=
  λ c, match f (working c) with
       | Return (a, w) => (Return a, Conn (committed c) w)
       | Raise e => (Raise e, c)
       end.

Definition begin : sql unit := ret tt.

(** ** Statements *)

Definition coalesce {A} (x y : option A) : option A :=
  match x with Some _ => x | None => y end.

(** [AUTOINCREMENT]: one more than the largest key handed out so far. *)
Definition next_id (ids : list Z) : Z := 1 + foldr Z.max 0 ids.

Definition fk_failed : exn := IntegrityError "FOREIGN KEY constraint failed".

(** [INSERT INTO users(user_id, username) VALUES(?, ?)
     ON CONFLICT(user_id) DO UPDATE SET
       username=COALESCE(excluded.username, users.username),
       updated_at=datetime('now')] *)
Definition upsert_user (now user_id : Z) (name : option string) (s : db) : db :=
  let row := match users s !! user_id with
             | None => UserRow name 0 now now
             | Some r => UserRow (coalesce name (username r)) (balance r) (u_created_at r) now
             end in
  Db (<[user_id := row]> (users s)) (payments s) (transfers s) (transactions s).

(** [SELECT balance FROM users WHERE user_id=?], then
    [int(row["balance"]) if row else 0] *)
Definition select_balance (user_id : Z) (s : db) : Z :=
  match users s !! user_id with
  | Some r => balance r
  | None => 0
  end.

(** [UPDATE users SET balance = balance + ?, updated_at=datetime('now') WHERE user_id=?] *)
Definition credit_balance (now amount user_id : Z) (s : db) : db :=
  Db (alter (λ r, UserRow (username r) (balance r + amount) (u_created_at r) now)
        user_id (users s))
     (payments s) (transfers s) (transactions s).

(** [UPDATE users SET balance = balance - ?, updated_at=datetime('now') WHERE user_id=?] *)
Definition debit_balance (now amount user_id : Z) (s : db) : db :=
  Db (alter (λ r, UserRow (username r) (balance r - amount) (u_created_at r) now)
        user_id (users s))
     (payments s) (transfers s) (transactions s).

(** [SELECT ... FROM payments WHERE charge_id=?] *)
Definition select_payment_by_charge (charge_id : string) (s : db) : option payment_row :=
  head (filter (λ p, p_charge_id p = charge_id) (payments s)).

(** [SELECT id, amount, refunded FROM payments WHERE charge_id=? AND user_id=?] *)
Definition select_payment_of_user (charge_id : string) (user_id : Z) (s : db)
  : option payment_row :=
  head (filter (λ p, p_charge_id p = charge_id ∧ p_user_id p = user_id) (payments s)).

(** [INSERT INTO payments(user_id, amount, currency, charge_id, refunded)
     VALUES(?, ?, 'XTR', ?, 0)], under [charge_id TEXT NOT NULL UNIQUE] and
    [FOREIGN KEY(user_id) REFERENCES users(user_id)] *)
Definition insert_payment (now user_id amount : Z) (charge_id : string) (s : db)
  : outcome (unit * db) :=
  if bool_decide (charge_id ∈ p_charge_id <$> payments s) then
    Raise (IntegrityError "UNIQUE constraint failed: payments.charge_id")
  else if bool_decide (users s !! user_id = None) then Raise fk_failed
  else
    let row := PaymentRow (next_id (p_id <$> payments s)) user_id amount "XTR" charge_id 0 now in
    Return (tt, Db (users s) (payments s ++ [row]) (transfers s) (transactions s)).

(** [UPDATE payments SET refunded=1 WHERE id=?] *)
Definition set_refunded (id : Z) (s : db) : db :=
  Db (users s)
     ((λ p, if bool_decide (p_id p = id)
            then PaymentRow (p_id p) (p_user_id p) (p_amount p) (p_currency p)
                            (p_charge_id p) 1 (p_created_at p)
            else p) <$> payments s)
     (transfers s) (transactions s).

(** [INSERT INTO transfers(from_user_id, to_user_id, amount) VALUES(?, ?, ?)];
    the result is [lastrowid]. *)
Definition insert_transfer (now from_user to_user amount : Z) (s : db)
  : outcome (Z * db) :=
  if bool_decide (users s !! from_user = None) then Raise fk_failed
  else if bool_decide (users s !! to_user = None) then Raise fk_failed
  else
    let id := next_id (t_id <$> transfers s) in
    Return (id, Db (users s) (payments s)
                   (transfers s ++ [TransferRow id from_user to_user amount now])
                   (transactions s)).

(** [INSERT INTO transactions(user_id, type, amount, related_user_id, charge_id,
     description, balance_after) VALUES(?, ?, ?, ?, ?, ?, ?)], under the two
    foreign keys and
    [CREATE UNIQUE INDEX idx_transactions_charge_id ON transactions(charge_id)
     WHERE charge_id IS NOT NULL] *)
Definition insert_transaction_row (now user_id : Z) (kind : tx_type) (amount : Z)
    (related_user_id : option Z) (charge_id : option string)
    (description : option string) (balance_after : option Z) (s : db)
  : outcome (unit * db) :=
  if (if charge_id is Some _ then bool_decide (charge_id ∈ tx_charge_id <$> transactions s)
      else false) then
    Raise (IntegrityError "UNIQUE constraint failed: transactions.charge_id")
  else if bool_decide (users s !! user_id = None) then Raise fk_failed
  else if (if related_user_id is Some r then bool_decide (users s !! r = None) else false)
  then Raise fk_failed
  else
    let row := TxRow (next_id (tx_id <$> transactions s)) user_id kind amount
                     related_user_id charge_id description balance_after now in
    Return (tt, Db (users s) (payments s) (transfers s) (transactions s ++ [row])).

(** ** Methods of [Database] *)

Local Open Scope sql_scope.

Definition _ensure_user_tx (now user_id : Z) (name : option string) : sql unit :=
  statement (λ s, Return (tt, upsert_user now user_id name s)).

Definition _get_balance_tx (user_id : Z) : sql Z := query (select_balance user_id).

Definition _insert_transaction (now user_id : Z) (kind : tx_type) (amount : Z)
    (related_user_id : option Z) (charge_id : option string)
    (description : option string) (balance_after : option Z) : sql unit :=
  statement (insert_transaction_row now user_id kind amount related_user_id charge_id
               description balance_after).

Definition ensure_user (now user_id : Z) (name : option string) : db → outcome unit * db :=
  with_connection (
    _ensure_user_tx now user_id name ;;
    commit).

Definition get_balance (user_id : Z) : db → outcome Z * db :=
  with_connection (query (select_balance user_id)).

Definition payment_exists (charge_id : string) : db → outcome bool * db :=
  with_connection (
    do row <- query (select_payment_by_charge charge_id) in
    ret (bool_decide (row ≠ None))).

Definition purchase_description : string := "Покупка Stars через Telegram".

Definition refund_description : string := "Возврат Stars пользователю".

Definition gift_out_description (amount to_user : Z) : string :=
  "Подарок " +:+ pretty amount +:+ "⭐ пользователю " +:+ pretty to_user.

Definition gift_in_description (amount from_user : Z) : string :=
  "Получен подарок " +:+ pretty amount +:+ "⭐ от пользователя " +:+ pretty from_user.

Definition add_purchase (now user_id : Z) (name : option string) (amount : Z)
    (charge_id : string) : db → outcome bool * db :=
  with_connection (
    begin ;;
    _ensure_user_tx now user_id name ;;
    do row <- query (select_payment_by_charge charge_id) in
    if row is Some _ then
      rollback ;;
      ret false
    else
      statement (insert_payment now user_id amount charge_id) ;;
      statement (λ s, Return (tt, credit_balance now amount user_id s)) ;;
      do balance_after <- _get_balance_tx user_id in
      _insert_transaction now user_id purchase amount None (Some charge_id)
        (Some purchase_description) (Some balance_after) ;;
      commit ;;
      ret true).

Definition transfer (now from_user to_user amount : Z)
    (from_username to_username : option string) (s : db) : outcome Z * db :=
  if bool_decide (amount ≤ 0) then (Raise (ValueError "amount must be positive"), s)
  else
    with_connection (
      begin ;;
      _ensure_user_tx now from_user from_username ;;
      _ensure_user_tx now to_user to_username ;;
      do sender_balance <- _get_balance_tx from_user in
      if bool_decide (sender_balance < amount) then
        rollback ;;
        raise (ValueError "insufficient_funds")
      else
        statement (λ s, Return (tt, debit_balance now amount from_user s)) ;;
        statement (λ s, Return (tt, credit_balance now amount to_user s)) ;;
        do transfer_id <- statement (insert_transfer now from_user to_user amount) in
        do sender_after <- _get_balance_tx from_user in
        do receiver_after <- _get_balance_tx to_user in
        _insert_transaction now from_user gift_out amount (Some to_user) None
          (Some (gift_out_description amount to_user)) (Some sender_after) ;;
        _insert_transaction now to_user gift_in amount (Some from_user) None
          (Some (gift_in_description amount from_user)) (Some receiver_after) ;;
        commit ;;
        ret transfer_id) s.

Definition mark_refund (now user_id : Z) (charge_id : string) (amount : Z)
  : db → outcome bool * db :=
  with_connection (
    begin ;;
    do row <- query (select_payment_of_user charge_id user_id) in
    match row with
    | None => rollback ;; ret false
    | Some row =>
      if bool_decide (p_refunded row ≠ 0) then
        rollback ;;
        ret false
      else if bool_decide (p_amount row ≠ amount) then
        rollback ;;
        ret false
      else
        do current_balance <- _get_balance_tx user_id in
        if bool_decide (current_balance < amount) then
          rollback ;;
          ret false
        else
          statement (λ s, Return (tt, set_refunded (p_id row) s)) ;;
          statement (λ s, Return (tt, debit_balance now amount user_id s)) ;;
          do balance_after <- _get_balance_tx user_id in
          _insert_transaction now user_id refund amount None (Some charge_id)
            (Some refund_description) (Some balance_after) ;;
          commit ;;
          ret true
    end).

(** ** Read-only queries *)

(** [ORDER BY]: the selected rows, arranged by the order [R].  Each order
    below names the sort keys of its query and then the order in which
    SQLite visits rows of equal keys, so that it decides between any two
    rows of a table. *)
Definition order_by {A} (R : relation A) `{!∀ x y, Decision (R x y)}
  : list A → list A := merge_sort R.

(** [LIMIT ? OFFSET ?]: a negative limit is no limit, a negative offset is
    offset 0. *)
Definition limit_offset {A} (limit offset : Z) (l : list A) : list A :=
  let l := drop (Z.to_nat offset) l in
  if bool_decide (limit < 0) then l else take (Z.to_nat limit) l.

(** [ORDER BY created_at DESC, id DESC] *)
Definition tx_newest_first (a b : tx_row) : Prop :=
  tx_created_at b < tx_created_at a
  ∨ (tx_created_at b = tx_created_at a ∧ tx_id b ≤ tx_id a).

(** [ORDER BY balance DESC] on [users].  The query is answered by a scan
    of [idx_users_balance ON users(balance DESC)]; an entry of that index
    is the balance followed by the rowid, which is [user_id] ([INTEGER
    PRIMARY KEY]), so accounts of equal balance come by ascending
    [user_id]. *)
Definition balance_desc (a b : Z * user_row) : Prop :=
  balance b.2 < balance a.2 ∨ (balance b.2 = balance a.2 ∧ a.1 ≤ b.1).

(** [ORDER BY created_at DESC] on [payments].  No index serves the query:
    the table is scanned by rowid, which is [id], and rows of equal
    [created_at] keep that order. *)
Definition payment_newest_first (a b : payment_row) : Prop :=
  p_created_at b < p_created_at a
  ∨ (p_created_at b = p_created_at a ∧ p_id a ≤ p_id b).

#[global] Instance tx_newest_first_dec a b : Decision (tx_newest_first a b).
Proof. unfold tx_newest_first. apply _. Defined.
#[global] Instance balance_desc_dec a b : Decision (balance_desc a b).
Proof. unfold balance_desc. apply _. Defined.
#[global] Instance payment_newest_first_dec a b : Decision (payment_newest_first a b).
Proof. unfold payment_newest_first. apply _. Defined.

(** The dictionaries built by [dict(row)] from the selected columns. *)
Record tx_item := TxItem {
  i_id : Z;
  i_type : tx_type;
  i_amount : Z;
  i_related_user_id : option Z;
  i_charge_id : option string;
  i_description : option string;
  i_balance_after : option Z;
  i_created_at : Z
}.

Definition tx_item_of (e : tx_row) : tx_item :=
  TxItem (tx_id e) (tx_kind e) (tx_amount e) (tx_related_user_id e) (tx_charge_id e)
         (tx_description e) (tx_balance_after e) (tx_created_at e).

Record top_item := TopItem {
  top_user_id : Z;
  top_username : option string;
  top_balance : Z
}.

Definition top_item_of (r : Z * user_row) : top_item :=
  TopItem r.1 (username r.2) (balance r.2).

Record payment_item := PaymentItem {
  pi_id : Z;
  pi_charge_id : string;
  pi_refunded : Z;
  pi_amount : Z
}.

Definition payment_item_of (p : payment_row) : payment_item :=
  PaymentItem (p_id p) (p_charge_id p) (p_refunded p) (p_amount p).

(** [SELECT id, type, amount, related_user_id, charge_id, description,
     balance_after, created_at FROM transactions WHERE user_id=?
     ORDER BY created_at DESC, id DESC LIMIT ? OFFSET ?] *)
Definition select_transactions (user_id limit offset : Z) (s : db) : list tx_item :=
  tx_item_of <$>
    limit_offset limit offset
      (order_by tx_newest_first (filter (λ e, tx_user_id e = user_id) (transactions s))).

Definition get_transactions (user_id limit offset : Z) : db → outcome (list tx_item) * db :=
  with_connection (query (select_transactions user_id limit offset)).

(** [SELECT COUNT( * ) AS cnt FROM transactions WHERE user_id=?] *)
Definition select_count (user_id : Z) (s : db) : Z :=
  Z.of_nat (length (filter (λ e, tx_user_id e = user_id) (transactions s))).

Definition count_transactions (user_id : Z) : db → outcome Z * db :=
  with_connection (query (select_count user_id)).

(** [SELECT user_id, username, balance FROM users ORDER BY balance DESC LIMIT ?] *)
Definition select_top (limit : Z) (s : db) : list top_item :=
  top_item_of <$> limit_offset limit 0 (order_by balance_desc (map_to_list (users s))).

Definition top_balances (limit : Z) : db → outcome (list top_item) * db :=
  with_connection (query (select_top limit)).

(** [SELECT id, charge_id, refunded, amount FROM payments
     WHERE user_id=? AND amount=? AND refunded=0
     ORDER BY created_at DESC LIMIT 1], then [fetchone()] *)
Definition refundable (user_id amount : Z) (p : payment_row) : Prop :=
  p_user_id p = user_id ∧ p_amount p = amount ∧ p_refunded p = 0.

#[global] Instance refundable_dec u a p : Decision (refundable u a p).
Proof. unfold refundable. apply _. Defined.

Definition select_refundable (user_id amount : Z) (s : db) : option payment_item :=
  payment_item_of <$>
    head (limit_offset 1 0
            (order_by payment_newest_first (filter (refundable user_id amount) (payments s)))).

Definition get_payment_for_amount (user_id amount : Z)
  : db → outcome (option payment_item) * db :=
  with_connection (query (select_refundable user_id amount)).

(** ** Histories

    The mutating calls a client can make, and the store they leave. *)

Inductive call :=
  | EnsureUser (user_id : Z) (name : option string)
  | AddPurchase (user_id : Z) (name : option string) (amount : Z) (charge_id : string)
  | Transfer (from_user to_user amount : Z) (from_username to_username : option string)
  | MarkRefund (user_id : Z) (charge_id : string) (amount : Z).

Definition perform (now : Z) (c : call) (s : db) : db :=
  match c with
  | EnsureUser u n => (ensure_user now u n s).2
  | AddPurchase u n a ch => (add_purchase now u n a ch s).2
  | Transfer f t a fn tn => (transfer now f t a fn tn s).2
  | MarkRefund u ch a => (mark_refund now u ch a s).2
  end.

(** A history is a sequence of calls, each with the clock reading at which
    it ran. *)
Definition run (h : list (Z * call)) (s : db) : db :=
  foldl (λ s tc, perform tc.1 tc.2 s) s h.

Definition reachable (s : db) : Prop := ∃ h, s = run h empty_db.

(** Signed amount of a ledger row: purchases and received gifts credit,
    sent gifts and refunds debit. *)
Definition signed_amount (e : tx_row) : Z :=
  match tx_kind e with
  | purchase | gift_in => tx_amount e
  | gift_out | refund => - tx_amount e
  end.

Definition ledger_sum (user_id : Z) (l : list tx_row) : Z :=
  foldr Z.add 0 (signed_amount <$> filter (λ e, tx_user_id e = user_id) l).

(** The store each mutating method commits when it runs to its [commit]. *)
Definition purchase_committed (now user_id : Z) (name : option string) (amount : Z)
    (charge_id : string) (s : db) : db :=
  let s1 := upsert_user now user_id name s in
  let row := PaymentRow (next_id (p_id <$> payments s)) user_id amount "XTR" charge_id 0 now in
  let s2 := credit_balance now amount user_id s1 in
  let entry := TxRow (next_id (tx_id <$> transactions s)) user_id purchase amount None
                 (Some charge_id) (Some purchase_description)
                 (Some (select_balance user_id s2)) now in
  Db (users s2) (payments s ++ [row]) (transfers s) (transactions s ++ [entry]).

Definition transfer_committed (now from_user to_user amount : Z)
    (from_username to_username : option string) (s : db) : db :=
  let s1 := upsert_user now to_user to_username (upsert_user now from_user from_username s) in
  let s2 := credit_balance now amount to_user (debit_balance now amount from_user s1) in
  let sent := TxRow (next_id (tx_id <$> transactions s)) from_user gift_out amount
                (Some to_user) None (Some (gift_out_description amount to_user))
                (Some (select_balance from_user s2)) now in
  let received := TxRow (next_id (tx_id <$> (transactions s ++ [sent]))) to_user gift_in amount
                (Some from_user) None (Some (gift_in_description amount from_user))
                (Some (select_balance to_user s2)) now in
  Db (users s2) (payments s)
     (transfers s ++ [TransferRow (next_id (t_id <$> transfers s)) from_user to_user amount now])
     (transactions s ++ [sent; received]).

Definition refund_committed (now user_id : Z) (charge_id : string) (amount : Z)
    (row : payment_row) (s : db) : db :=
  let s2 := debit_balance now amount user_id (set_refunded (p_id row) s) in
  let entry := TxRow (next_id (tx_id <$> transactions s)) user_id refund amount None
                 (Some charge_id) (Some refund_description)
                 (Some (select_balance user_id s2)) now in
  Db (users s2) (payments s2) (transfers s) (transactions s ++ [entry]).

(** ** Notions used in the statements *)

(** The account has a row in [users]. *)
Definition has_user (u : Z) (s : db) : Prop := is_Some (users s !! u).

(** Every call either leaves the store as it was (early return, rollback,
    or an exception before [commit]) or commits one of the stores above. *)
Inductive commits (now : Z) (s : db) : call → db → Prop :=
  | commits_nothing c : commits now s c s
  | commits_upsert u n : commits now s (EnsureUser u n) (upsert_user now u n s)
  | commits_purchase u n a ch :
      ch ∉ p_charge_id <$> payments s →
      Some ch ∉ tx_charge_id <$> transactions s →
      commits now s (AddPurchase u n a ch) (purchase_committed now u n a ch s)
  | commits_transfer f t a fn tn :
      0 < a → a ≤ select_balance f s →
      commits now s (Transfer f t a fn tn) (transfer_committed now f t a fn tn s)
  | commits_refund u ch a row :
      select_payment_of_user ch u s = Some row →
      p_refunded row = 0 → p_amount row = a → a ≤ select_balance u s →
      Some ch ∉ tx_charge_id <$> transactions s →
      has_user u s →
      commits now s (MarkRefund u ch a) (refund_committed now u ch a row s).

(** The stored balance of every account is the sum of its ledger. *)
Definition balance_is_ledger_sum (s : db) : Prop :=
  ∀ u, select_balance u s = ledger_sum u (transactions s).

(** Every charge id in the ledger belongs to a payment. *)
Definition ledger_charges_recorded (s : db) : Prop :=
  ∀ ch, Some ch ∈ tx_charge_id <$> transactions s → ch ∈ p_charge_id <$> payments s.

(** A purchase and its refund would carry the same charge id in the
    ledger, which [idx_transactions_charge_id] forbids: in a reachable
    store every payment already has its purchase row, so [mark_refund]
    never reaches its [commit]. *)
Definition payments_in_ledger (s : db) : Prop :=
  ∀ ch, ch ∈ p_charge_id <$> payments s → Some ch ∈ tx_charge_id <$> transactions s.

(** Purchases come with a positive amount, as payment notifications do. *)
Definition purchase_amount_ok (c : call) : Prop :=
  match c with
  | AddPurchase _ _ a _ => 0 < a
  | _ => True
  end.

(** The order of [ORDER BY created_at DESC, id DESC] on the returned
    dictionaries, strict in the pair (created_at, id). *)
Definition item_newer (i j : tx_item) : Prop :=
  i_created_at j < i_created_at i
  ∨ (i_created_at j = i_created_at i ∧ i_id j < i_id i).

(** The whole listing of an account, newest first. *)
Definition listing (u : Z) (s : db) : list tx_row :=
  order_by tx_newest_first (filter (λ e, tx_user_id e = u) (transactions s)).

(** Rows of equal balance appear in ascending [user_id] order. *)
Definition ties_by_ascending_id (res : list top_item) : Prop :=
  ∀ (i j : nat) a b,
    res !! i = Some a → res !! j = Some b → (i < j)%nat →
    top_balance a = top_balance b → top_user_id a < top_user_id b.

(** A store with one account holding one purchase, used to instantiate the
    theorems below. *)
Definition bob_paid : list (Z * call) := [(100, AddPurchase 7 (Some "bob") 50 "chg1")].

(** A store with three ledger rows for account 7. *)
Definition bob_history : list (Z * call) :=
  [(100, AddPurchase 7 (Some "bob") 50 "chg1");
   (100, AddPurchase 7 None 30 "chg2");
   (101, Transfer 7 8 20 None None)].

(** Two accounts with the same balance. *)
Definition two_tied : list (Z * call) :=
  [(100, AddPurchase 1 None 5 "a"); (100, AddPurchase 2 None 5 "b")].

(** A purchase with a negative amount. *)
Definition negative_purchase : list (Z * call) :=
  [(100, AddPurchase 7 None (-5) "n")].

(** Three payments of one account, of the same amount and recorded in the
    same second. *)
Definition same_second : list (Z * call) :=
  [(100, AddPurchase 7 None 30 "a");
   (100, AddPurchase 7 None 30 "b");
   (100, AddPurchase 7 None 30 "c")].

(** Sum of the balances of all accounts. *)
Definition total_balance (s : db) : Z :=
  map_fold (λ _ r acc, balance r + acc) 0 (users s).

(** Sum of the amounts of the payments that are not refunded. *)
Definition outstanding (l : list payment_row) : Z :=
  foldr Z.add 0 ((λ p, if bool_decide (p_refunded p = 0) then p_amount p else 0) <$> l).

(** The foreign keys of [CREATE_SQL]: every [user_id] a row mentions is
    the key of an account. *)
Definition references_resolve (s : db) : Prop :=
  (∀ p, p ∈ payments s → has_user (p_user_id p) s)
  ∧ (∀ t, t ∈ transfers s → has_user (t_from_user_id t) s ∧ has_user (t_to_user_id t) s)
  ∧ (∀ e, e ∈ transactions s →
       has_user (tx_user_id e) s
       ∧ ∀ r, tx_related_user_id e = Some r → has_user r s).

(** The purchase rows of the ledger, read as (charge id, account, amount),
    are the payments in the same order. *)
Definition purchases_mirror_payments (s : db) : Prop :=
  (λ e, (tx_charge_id e, tx_user_id e, tx_amount e))
    <$> filter (λ e, tx_kind e = purchase) (transactions s)
  = (λ p, (Some (p_charge_id p), p_user_id p, p_amount p)) <$> payments s.

(** What holds of payments and refunds in a reachable store. *)
Definition purchase_bundle (s : db) : Prop :=
  purchases_mirror_payments s
  ∧ NoDup (p_charge_id <$> payments s)
  ∧ (∀ p, p ∈ payments s → p_refunded p = 0)
  ∧ (∀ e, e ∈ transactions s → tx_kind e ≠ refund).

(** A payment row after a call: the same payment, with [refunded] as it
    was or set. *)
Definition same_payment (p p' : payment_row) : Prop :=
  (p_id p', p_user_id p', p_amount p', p_currency p', p_charge_id p', p_created_at p')
  = (p_id p, p_user_id p, p_amount p, p_currency p, p_charge_id p, p_created_at p)
  ∧ (p_refunded p' = p_refunded p ∨ p_refunded p' = 1).

(** * The bot ([src/bot/handlers.py], [src/bot/keyboards.py], [src/bot/texts.py])

    A handler talks to the store through the methods above and to
    Telegram through calls that are recorded, in order, in [sent].
    Telegram calls succeed unless the handler itself provides for their
    failure; logging is left out.  Two things the handlers take from
    outside are parameters: Python's [int] on a string ([py_int], raising
    [ValueError] on text that is no integer literal) and the text of a
    stored timestamp ([datetime_text]). *)

Record button := Button { b_text : string; b_callback_data : string }.

(** An [InlineKeyboardBuilder]: rows given one by one with [builder.row],
    or buttons given in sequence and laid out by [builder.adjust]. *)
Inductive markup :=
  | Rows (rows : list (list button))
  | Adjusted (buttons : list button) (sizes : list nat).

Inductive tg_call :=
  | callback_answer (text : option string) (show_alert : bool)
  | edit_text (text : string) (reply_markup : markup)
  | message_answer (text : string) (reply_markup : option markup)
  | refund_star_payment (user_id : Z) (telegram_payment_charge_id : string)
  | send_invoice (chat_id : Z) (title description payload provider_token currency : string)
      (price_label : string) (price_amount : Z) (start_parameter : string)
  | pre_checkout_answer (ok : bool) (error_message : option string).

Definition buttons_of (m : markup) : list button :=
  match m with
  | Rows rows => concat rows
  | Adjusted buttons _ => buttons
  end.

Record world := World { store : db; sent : list tg_call }.

(** [message.successful_payment] and a [PreCheckoutQuery], as far as the
    handlers read them. *)
Record payment_notice := PaymentNotice {
  sp_currency : string;
  sp_total_amount : Z;
  sp_telegram_payment_charge_id : string
}.

Record checkout_query := CheckoutQuery {
  cq_currency : string;
  cq_invoice_payload : option string;
  cq_total_amount : Z;
  cq_from_user_id : Z
}.

Definition handler (A : Type) : Type := world → outcome A * world.

Definition hret {A} (a : A) : handler A := λ w, (Return a, w).

Definition hbind {A B} (m : handler A) (k : A → handler B) : handler B :=
  λ w, match m w with
       | (Return a, w') => k a w'
       | (Raise e, w') => (Raise e, w')
       end.

Declare Scope handler_scope.
Delimit Scope handler_scope with handler.
Notation "'do' x <- m 'in' k" := (hbind m (λ x, k))
  (at level 10, x name, m at level 100, k at level 200) : handler_scope.
Notation "m ';;' k" := (hbind m (λ _, k))
  (at level 100, k at level 200, right associativity) : handler_scope.

(** [await db.method(...)] *)
Definition on_db {A} (m : db → outcome A * db) : handler A :=
  λ w, let '(r, s) := m (store w) in (r, World s (sent w)).

Definition send (c : tg_call) : handler unit :=
  λ w, (Return tt, World (store w) (sent w ++ [c])).

(** [try: body except ValueError: recover] *)
Definition except_ValueError {A} (body : handler A) (recover : string → handler A)
  : handler A :=
  λ w, match body w with
       | (Raise (ValueError msg), w') => recover msg w'
       | r => r
       end.

Definition nl : string := String (Ascii.ascii_of_nat 10) "".

Definition colon : Ascii.ascii := Ascii.ascii_of_nat 58.

(** [sep.join(l)] *)
Fixpoint join (sep : string) (l : list string) : string :=
  match l with
  | [] => ""
  | [x] => x
  | x :: l' => x +:+ sep +:+ join sep l'
  end.

(** [s.split(c)] for a one-character separator *)
Fixpoint split_on (c : Ascii.ascii) (s : string) : list string :=
  match s with
  | EmptyString => [EmptyString]
  | String a s' =>
      if bool_decide (a = c) then EmptyString :: split_on c s'
      else match split_on c s' with
           | x :: xs => String a x :: xs
           | [] => [String a EmptyString]
           end
  end.

Fixpoint no_colon (s : string) : Prop :=
  match s with
  | EmptyString => True
  | String a s' => a ≠ colon ∧ no_colon s'
  end.

(** A reading of plain decimal literals (digits, with an optional minus
    sign), as [int] reads them; it stands in for [py_int] where a theorem
    is instantiated. *)
Fixpoint read_digits (s : string) (acc : Z) : option Z :=
  match s with
  | EmptyString => Some acc
  | String a s' =>
      let d := Z.of_nat (Ascii.nat_of_ascii a) - 48 in
      if bool_decide (0 ≤ d ≤ 9) then read_digits s' (10 * acc + d) else None
  end.

Definition read_decimal (s : string) : outcome Z :=
  let bad := Raise (ValueError ("invalid literal for int() with base 10: " +:+ s)) in
  match s with
  | EmptyString => bad
  | String a s' =>
      if bool_decide (a = Ascii.ascii_of_nat 45) then
        match s' with
        | EmptyString => bad
        | _ => match read_digits s' 0 with Some n => Return (- n) | None => bad end
        end
      else match read_digits s 0 with Some n => Return n | None => bad end
  end.

Definition CURRENCY : string := "XTR".
Definition PAGE_SIZE : Z := 20.
Definition BUY_PACKS : list Z := [50; 100; 250; 500].

Definition back_button : button := Button "⬅️ Назад" "menu:root".

Definition main_menu (include_test : bool) : markup :=
  Rows ([ [Button "⭐ Купить Stars" "menu:buy"];
          [Button "🎁 Подарить Stars" "menu:gift"];
          [Button "💳 Мой баланс" "menu:balance"];
          [Button "🧾 История" "menu:history:0"];
          [Button "ℹ️ Помощь" "menu:help"] ]
        ++ if include_test then [[Button "🧪 Тест: +50⭐" "test:add50"]] else []).

Definition buy_packs_keyboard : markup :=
  Adjusted
    (((λ amount, Button ("+" +:+ pretty amount +:+ " ⭐") ("buy:" +:+ pretty amount))
        <$> BUY_PACKS) ++ [back_button])
    [2; 2; 1]%nat.

Definition gift_amount_keyboard (recipient_id : Z) : markup :=
  Adjusted
    (((λ amount, Button ("Отправить " +:+ pretty amount +:+ " ⭐")
                        ("gift:" +:+ pretty recipient_id +:+ ":" +:+ pretty amount))
        <$> BUY_PACKS) ++ [back_button])
    [1]%nat.

Definition history_keyboard (page : Z) (has_prev has_next : bool)
    (refund_amounts : option (list Z)) : markup :=
  Adjusted
    ((if has_prev then [Button "←" ("menu:history:" +:+ pretty (page - 1))] else [])
     ++ [Button ("Стр. " +:+ pretty (page + 1)) "noop"]
     ++ (if has_next then [Button "→" ("menu:history:" +:+ pretty (page + 1))] else [])
     ++ (match refund_amounts with
         | Some ((_ :: _) as amounts) =>
             (λ amount, Button ("↩️ Вернуть " +:+ pretty amount +:+ "⭐")
                               ("refund:" +:+ pretty amount)) <$> amounts
         | _ => []
         end)
     ++ [back_button])
    [3; 1; 1]%nat.

Definition type_name (t : tx_type) : string :=
  match t with
  | purchase => "purchase"
  | gift_in => "gift_in"
  | gift_out => "gift_out"
  | refund => "refund"
  end.

Definition balance_text (user_id balance : Z) : string :=
  "💳 Баланс в боте: " +:+ pretty balance +:+ "⭐" +:+ nl
  +:+ "Ваш user_id: <code>" +:+ pretty user_id +:+ "</code>".

Definition history_empty_text : string :=
  "История пуста. Совершите покупку или перевод, чтобы увидеть операции.".

Section handlers.
Variable py_int : string → outcome Z.
Variable datetime_text : Z → string.

Local Open Scope handler_scope.

(** [texts.history_entry]; the defaults of the two [.get] lookups are
    never used, [type] being one of the four names. *)
Definition history_entry (row : tx_item) : string :=
  let emoji := match i_type row with
               | purchase => "🟢" | gift_in => "🎁" | gift_out => "📤" | refund => "↩️"
               end in
  let direction := match i_type row with
                   | purchase | gift_in => "+"
                   | gift_out | refund => "-"
                   end in
  let amount := i_amount row in
  let related_text :=
    match i_related_user_id row with
    | Some related =>
        if bool_decide (related ≠ 0) then " | Контрагент: " +:+ pretty related else ""
    | None => ""
    end in
  let desc := default "" (i_description row) in
  emoji +:+ " " +:+ direction +:+ pretty amount +:+ "⭐ (" +:+ type_name (i_type row)
  +:+ ")" +:+ related_text +:+ nl +:+ desc +:+ nl +:+ datetime_text (i_created_at row).

(** The loop of [send_history] over [BUY_PACKS]. *)
Fixpoint refundable_amounts (user_id : Z) (packs : list Z) (refundable : list Z)
  : handler (list Z) :=
  match packs with
  | [] => hret refundable
  | amount :: packs =>
      do payment <- on_db (get_payment_for_amount user_id amount) in
      refundable_amounts user_id packs
        (if bool_decide (payment ≠ None ∧ amount ∉ refundable)
         then refundable ++ [amount] else refundable)
  end.

(** [send_history(callback, db, page)]; [edit_ok] tells whether
    [edit_text] goes through or raises [TelegramBadRequest]. *)
Definition send_history (user_id : Z) (has_message edit_ok : bool) (page : Z)
  : handler unit :=
  let offset := page * PAGE_SIZE in
  do items <- on_db (get_transactions user_id PAGE_SIZE offset) in
  do total <- on_db (count_transactions user_id) in
  let has_prev := bool_decide (page > 0) in
  let has_next := bool_decide (offset + PAGE_SIZE < total) in
  do refundable <- refundable_amounts user_id BUY_PACKS [] in
  let text :=
    if bool_decide (items = []) then history_empty_text
    else
      "🧾 История операций (последние):" +:+ nl +:+ nl
      +:+ join (nl +:+ nl) (history_entry <$> items) in
  if has_message then
    if edit_ok then
      send (edit_text text (history_keyboard page has_prev has_next (Some refundable)))
    else
      send (message_answer text
              (Some (history_keyboard page has_prev has_next (Some refundable))))
  else hret tt.

(** The page [menu_history] reads from the callback data. *)
Definition history_page (data : string) : outcome Z :=
  let parts := split_on colon data in
  let page :=
    if bool_decide (length parts = 3%nat) then
      match py_int (default "" (last parts)) with
      | Raise (ValueError _) => Return 0
      | r => r
      end
    else Return 0 in
  match page with
  | Return page => Return (Z.max page 0)
  | Raise e => Raise e
  end.

Definition menu_history (data : string) (user_id : Z) (has_message edit_ok : bool)
  : handler unit :=
  send (callback_answer None false) ;;
  do page <- (λ w, (history_page data, w)) in
  send_history user_id has_message edit_ok page.

Definition alert (text : string) : handler unit :=
  send (callback_answer (Some text) true).

(** [gift_amount(callback)] *)
Definition gift_amount (now : Z) (data : string) (sender_id : Z)
    (sender_username : option string) (has_message : bool) : handler unit :=
  send (callback_answer None false) ;;
  let parts := split_on colon data in
  if bool_decide (length parts ≠ 3%nat) then alert "Некорректная команда"
  else
    do recipient_id <- (λ w, (py_int (default "" (parts !! 1%nat)), w)) in
    do amount <- (λ w, (py_int (default "" (parts !! 2%nat)), w)) in
    if bool_decide (recipient_id = sender_id) then
      alert "Нельзя отправить Stars самому себе"
    else
      do balance <- on_db (get_balance sender_id) in
      if bool_decide (balance < amount) then
        alert "Недостаточно Stars на балансе бота."
      else
        do done <- except_ValueError
                     (on_db (transfer now sender_id recipient_id amount
                               sender_username None) ;;
                      hret true)
                     (λ _, alert "Не удалось выполнить перевод. Попробуйте позже." ;;
                           hret false) in
        if done then
          do new_balance <- on_db (get_balance sender_id) in
          if has_message then
            send (edit_text
                    ("Готово! Отправлено " +:+ pretty amount +:+ "⭐ пользователю <code>"
                     +:+ pretty recipient_id +:+ "</code>." +:+ nl
                     +:+ "Ваш баланс в боте: " +:+ pretty new_balance +:+ "⭐")
                    (main_menu false))
          else hret tt
        else hret tt.
(** [int(callback.data.split(":")[1])] under
    [except (ValueError, IndexError)]: [None] when either is raised. *)
Definition amount_of (data : string) : handler (option Z) :=
  λ w, match split_on colon data !! 1%nat with
       | None => (Return None, w)
       | Some x =>
           match py_int x with
           | Return amount => (Return (Some amount), w)
           | Raise (ValueError _) => (Return None, w)
           | Raise e => (Raise e, w)
           end
       end.

(** [refund(callback)]; [telegram] is what [refund_star_payment] does:
    [None] when it raises, [Some ok] when it returns [ok]. *)
Definition refund_callback (now : Z) (data : string) (user_id : Z) (has_message : bool)
    (telegram : option bool) : handler unit :=
  send (callback_answer None false) ;;
  do parsed <- amount_of data in
  match parsed with
  | None => alert "Некорректная сумма"
  | Some amount =>
      do payment <- on_db (get_payment_for_amount user_id amount) in
      match payment with
      | None => alert "Нет подходящих платежей для возврата."
      | Some payment =>
          send (refund_star_payment user_id (pi_charge_id payment)) ;;
          match telegram with
          | None => alert "Не удалось выполнить возврат сейчас. Попробуйте позже."
          | Some false => alert "Telegram отказал в возврате."
          | Some true =>
              do success <- on_db (mark_refund now user_id (pi_charge_id payment) amount) in
              if negb success then alert "Не удалось отметить возврат в базе."
              else
                do balance <- on_db (get_balance user_id) in
                if has_message then
                  send (edit_text
                          ("Возврат " +:+ pretty amount +:+ "⭐ выполнен." +:+ nl
                           +:+ "Текущий баланс в боте: " +:+ pretty balance +:+ "⭐")
                          (main_menu false))
                else hret tt
          end
      end
  end.

(** [buy_stars(callback)]; [invoice_ok] tells whether [send_invoice]
    goes through or raises [TelegramBadRequest]. *)
Definition buy_stars (data : string) (user_id : Z) (invoice_ok : bool) : handler unit :=
  send (callback_answer None false) ;;
  do parsed <- amount_of data in
  match parsed with
  | None => alert "Некорректная сумма"
  | Some amount =>
      if bool_decide (amount ∉ BUY_PACKS) then alert "Сумма недоступна"
      else
        let payload := "buy:" +:+ pretty amount +:+ ":" +:+ pretty user_id in
        send (send_invoice user_id ("Покупка " +:+ pretty amount +:+ "⭐")
                "Оплата Stars внутри Telegram" payload "" CURRENCY
                (pretty amount +:+ " Stars") amount "stars") ;;
        if invoice_ok then hret tt
        else alert "Не удалось создать счёт. Попробуйте позже."
  end.

(** [pre_checkout(pre_checkout_query)] *)
Definition pre_checkout (q : checkout_query) : handler unit :=
  if bool_decide (cq_currency q ≠ CURRENCY) then
    send (pre_checkout_answer false (Some "Требуется валюта XTR (Stars)."))
  else
    let payload := default "" (cq_invoice_payload q) in
    let parts := split_on colon payload in
    if bool_decide (length parts ≠ 3%nat ∨ parts !! 0%nat ≠ Some "buy") then
      send (pre_checkout_answer false (Some "Некорректный payload."))
    else
      do amount <- (λ w, (py_int (default "" (parts !! 1%nat)), w)) in
      do user_from_payload <- (λ w, (py_int (default "" (parts !! 2%nat)), w)) in
      if bool_decide (amount ≠ cq_total_amount q ∨ user_from_payload ≠ cq_from_user_id q)
      then send (pre_checkout_answer false (Some "Проверка суммы не пройдена."))
      else if bool_decide (amount ∉ BUY_PACKS) then
        send (pre_checkout_answer false (Some "Некорректная сумма."))
      else send (pre_checkout_answer true None).

(** [successful_payment(message)] *)
Definition successful_payment (now : Z) (payment : option payment_notice)
    (user_id : Z) (user_name : option string) : handler unit :=
  match payment with
  | None => hret tt
  | Some payment =>
      if bool_decide (sp_currency payment ≠ CURRENCY) then hret tt
      else
        let amount := sp_total_amount payment in
        let charge_id := sp_telegram_payment_charge_id payment in
        do created <- on_db (add_purchase now user_id user_name amount charge_id) in
        if negb created then send (message_answer "Этот платёж уже обработан." None)
        else
          do balance <- on_db (get_balance user_id) in
          send (message_answer
                  ("Покупка успешна! +" +:+ pretty amount +:+ "⭐ зачислено на баланс."
                   +:+ nl +:+ "Ваш баланс в боте: " +:+ pretty balance +:+ "⭐")
                  (Some (main_menu false)))
  end.

(** [menu_balance(callback)], with [safe_edit] *)
Definition menu_balance (user_id : Z) (has_message edit_ok : bool) : handler unit :=
  send (callback_answer None false) ;;
  do bal <- on_db (get_balance user_id) in
  if has_message then
    if edit_ok then send (edit_text (balance_text user_id bal) (main_menu false))
    else send (message_answer (balance_text user_id bal) (Some (main_menu false)))
  else hret tt.
End handlers.

(** * The stand-alone bot ([bot.py])

    The older single-file bot keeps balances in the dictionary
    [user_balances].  Callbacks are taken to come with their message
    ([callback.message] is used unguarded); [parse_mode] is left out of
    the recorded calls. *)

(** [s.partition(c)]: the text before the first [c], the separator if
    found, and the text after it. *)
Fixpoint partition_on (c : Ascii.ascii) (s : string) : string * string * string :=
  match s with
  | EmptyString => (EmptyString, EmptyString, EmptyString)
  | String a s' =>
      if bool_decide (a = c) then (EmptyString, String c EmptyString, s')
      else let '(before, sep, after) := partition_on c s' in (String a before, sep, after)
  end.

Module BotPy.
Definition BUY_AMOUNTS : list Z := [50; 100; 250; 500].
Definition SELL_AMOUNTS : list Z := [50; 100; 250].

Record state := State { user_balances : gmap Z Z; sent : list tg_call }.

Definition build_main_keyboard : markup :=
  let buy_buttons :=
    (λ amount, Button ("Купить " +:+ pretty amount +:+ "⭐") ("buy:" +:+ pretty amount))
      <$> BUY_AMOUNTS in
  let sell_buttons :=
    (λ amount, Button ("Продать " +:+ pretty amount +:+ "⭐") ("sell:" +:+ pretty amount))
      <$> SELL_AMOUNTS in
  Rows [take 2 buy_buttons; drop 2 buy_buttons; take 2 sell_buttons; drop 2 sell_buttons;
        [Button "Баланс" "balance"]].

Definition get_balance (user_id : Z) (st : state) : Z :=
  default 0 (user_balances st !! user_id).

Definition set_balance (user_id balance : Z) (st : state) : state :=
  State (<[user_id := Z.max balance 0]> (user_balances st)) (sent st).

Definition tell (c : tg_call) (st : state) : state :=
  State (user_balances st) (sent st ++ [c]).

Definition handle_balance (user_id : Z) (st : state) : state :=
  let balance := get_balance user_id st in
  let st := tell (callback_answer None false) st in
  tell (edit_text ("На вашем счёте " +:+ pretty balance +:+ "⭐.") build_main_keyboard) st.

Definition handle_buy (user_id amount : Z) (st : state) : state :=
  let st := tell (callback_answer None false) st in
  let payload := "buy:" +:+ pretty amount +:+ ":" +:+ pretty user_id in
  tell (send_invoice user_id ("Покупка " +:+ pretty amount +:+ "⭐")
          "Моментальная покупка звёзд" payload "STARS" "XTR"
          ("Покупка " +:+ pretty amount +:+ "⭐") amount payload) st.

Definition handle_sell (user_id amount : Z) (st : state) : state :=
  let balance := get_balance user_id st in
  if bool_decide (balance < amount) then
    tell (callback_answer (Some "Недостаточно звёзд на балансе") true) st
  else
    let st := set_balance user_id (balance - amount) st in
    let st := tell (callback_answer None false) st in
    tell (edit_text ("Вы продали " +:+ pretty amount +:+ "⭐. Остаток "
                     +:+ pretty (get_balance user_id st) +:+ "⭐.")
            build_main_keyboard) st.

Definition handle_pre_checkout (st : state) : state :=
  tell (pre_checkout_answer true None) st.

Definition handle_successful_payment (user_id stars : Z) (st : state) : state :=
  let balance := get_balance user_id st in
  let st := set_balance user_id (balance + stars) st in
  tell (message_answer
          ("Платёж на " +:+ pretty stars +:+ "⭐ успешно получен! Текущий баланс: "
           +:+ pretty (get_balance user_id st) +:+ "⭐")
          (Some build_main_keyboard)) st.

Section dispatch.
Variable py_int : string → outcome Z.

Definition handle_callback (data : option string) (user_id : Z) (st : state)
  : outcome unit * state :=
  let data := default "" data in
  if bool_decide (data = "balance") then (Return tt, handle_balance user_id st)
  else
    let '(action, _, value) := partition_on colon data in
    if bool_decide (value = "") then
      (Return tt, tell (callback_answer (Some "Некорректная команда") true) st)
    else
      match py_int value with
      | Raise (ValueError _) =>
          (Return tt, tell (callback_answer (Some "Некорректная сумма") true) st)
      | Raise e => (Raise e, st)
      | Return amount =>
          if bool_decide (action = "buy") then (Return tt, handle_buy user_id amount st)
          else if bool_decide (action = "sell") then
            (Return tt, handle_sell user_id amount st)
          else (Return tt, tell (callback_answer (Some "Неизвестное действие") true) st)
      end.

(** What reaches the bot: a callback query or a successful payment. *)
Inductive update :=
  | Callback (data : option string) (user_id : Z)
  | SuccessfulPayment (user_id stars : Z).

Definition handle (u : update) (st : state) : state :=
  match u with
  | Callback data user_id => (handle_callback data user_id st).2
  | SuccessfulPayment user_id stars => handle_successful_payment user_id stars st
  end.

Definition handle_all (us : list update) (st : state) : state :=
  foldl (λ st u, handle u st) st us.
End dispatch.

Definition start : state := State ∅ [].
End BotPy.

(** Every balance the dictionary holds is at least 0. *)
Definition botpy_nonneg (st : BotPy.state) : Prop :=
  ∀ u b, BotPy.user_balances st !! u = Some b → 0 ≤ b.

(** * Properties *)

(** ** Lists and lookups *)

Lemma head_filter_None {A} (P : A → Prop) `{!∀ x, Decision (P x)} (l : list A) :
  head (filter P l) = None ↔ ∀ x, x ∈ l → ¬ P x.
Proof.
  rewrite head_None. split.
  - intros E x Hx HP. assert (x ∈ filter P l) as Hin by (apply list_elem_of_filter; done).
    rewrite E in Hin. by apply not_elem_of_nil in Hin.
  - intros Hall. destruct (filter P l) as [|y t] eqn:E; [done|].
    assert (y ∈ filter P l) as Hin by (rewrite E; left).
    apply list_elem_of_filter in Hin as [HP Hy]. by destruct (Hall y).
Qed.

Lemma head_filter_Some {A} (P : A → Prop) `{!∀ x, Decision (P x)} (l : list A) x :
  head (filter P l) = Some x → x ∈ l ∧ P x.
Proof.
  intros E. destruct (filter P l) as [|y t] eqn:F; [done|]. simplify_eq/=.
  assert (x ∈ filter P l) as Hin by (rewrite F; left).
  apply list_elem_of_filter in Hin. tauto.
Qed.

Lemma select_payment_by_charge_None c s :
  select_payment_by_charge c s = None ↔ c ∉ p_charge_id <$> payments s.
Proof.
  unfold select_payment_by_charge. rewrite head_filter_None, list_elem_of_fmap. split.
  - intros Hall (p & -> & Hp). by apply (Hall p).
  - intros Hall p Hp E. apply Hall. by exists p.
Qed.

Lemma next_id_gt (ids : list Z) x : x ∈ ids → x < next_id ids.
Proof.
  unfold next_id. induction 1 as [x l|x y l _ IH]; simpl; lia.
Qed.

Lemma next_id_fresh (ids : list Z) : next_id ids ∉ ids.
Proof. intros H. apply next_id_gt in H. lia. Qed.

(** ** Balances under the statements *)

Lemma has_user_upsert now u n v s : has_user v (upsert_user now u n s) ↔ v = u ∨ has_user v s.
Proof.
  unfold has_user, upsert_user. simpl. rewrite lookup_insert.
  case_decide; subst; split; eauto; intros [|]; done.
Qed.

Lemma select_balance_upsert now u n v s :
  select_balance v (upsert_user now u n s) = select_balance v s.
Proof.
  unfold select_balance, upsert_user. simpl. rewrite lookup_insert.
  case_decide; [subst|done]. by destruct (users s !! v).
Qed.

Lemma has_user_credit now a u v s : has_user v (credit_balance now a u s) ↔ has_user v s.
Proof.
  unfold has_user, credit_balance. simpl. rewrite lookup_alter.
  case_decide; [subst|done]. by rewrite fmap_is_Some.
Qed.

Lemma has_user_debit now a u v s : has_user v (debit_balance now a u s) ↔ has_user v s.
Proof.
  unfold has_user, debit_balance. simpl. rewrite lookup_alter.
  case_decide; [subst|done]. by rewrite fmap_is_Some.
Qed.

Lemma select_balance_credit now a u v s :
  has_user u s →
  select_balance v (credit_balance now a u s)
  = select_balance v s + (if decide (v = u) then a else 0).
Proof.
  intros [r Hr]. unfold select_balance, credit_balance. simpl. rewrite lookup_alter.
  destruct (decide (v = u)) as [->|]; case_decide; try done.
  - by rewrite Hr.
  - lia.
Qed.

Lemma select_balance_debit now a u v s :
  has_user u s →
  select_balance v (debit_balance now a u s)
  = select_balance v s - (if decide (v = u) then a else 0).
Proof.
  intros [r Hr]. unfold select_balance, debit_balance. simpl. rewrite lookup_alter.
  destruct (decide (v = u)) as [->|]; case_decide; try done.
  - by rewrite Hr.
  - lia.
Qed.

(** ** What each method returns and commits *)

Ltac run_sql :=
  cbv [with_connection bind statement query ret raise commit rollback begin
       _ensure_user_tx _get_balance_tx _insert_transaction working committed].

Lemma ensure_user_eq now u n s :
  ensure_user now u n s = (Return tt, upsert_user now u n s).
Proof. reflexivity. Qed.

Lemma get_balance_eq u s : get_balance u s = (Return (select_balance u s), s).
Proof. reflexivity. Qed.

Lemma add_purchase_cases now u n a c s :
  add_purchase now u n a c s =
    if select_payment_by_charge c s is Some _ then (Return false, s)
    else if bool_decide (Some c ∈ tx_charge_id <$> transactions s)
    then (Raise (IntegrityError "UNIQUE constraint failed: transactions.charge_id"), s)
    else (Return true, purchase_committed now u n a c s).
Proof.
  unfold add_purchase. run_sql.
  change (select_payment_by_charge c (upsert_user now u n s))
    with (select_payment_by_charge c s).
  destruct (select_payment_by_charge c s) as [p|] eqn:E; [done|].
  apply select_payment_by_charge_None in E.
  unfold insert_payment.
  change (payments (upsert_user now u n s)) with (payments s).
  rewrite (bool_decide_eq_false_2 _ E).
  assert (has_user u (upsert_user now u n s)) as Hu by (apply has_user_upsert; auto).
  rewrite bool_decide_eq_false_2 by (intros Hn; destruct Hu as [r Hr]; congruence).
  unfold insert_transaction_row.
  cbn [credit_balance upsert_user users payments transfers transactions].
  case_bool_decide as Hc; [done|].
  rewrite bool_decide_eq_false_2.
  2:{ apply (has_user_credit now a u u) in Hu. destruct Hu as [r Hr].
      unfold credit_balance, upsert_user in Hr. simpl in Hr. congruence. }
  reflexivity.
Qed.

Lemma transfer_cases now f t a fn tn s :
  transfer now f t a fn tn s =
    if bool_decide (a ≤ 0) then (Raise (ValueError "amount must be positive"), s)
    else if bool_decide (select_balance f s < a)
    then (Raise (ValueError "insufficient_funds"), s)
    else (Return (next_id (t_id <$> transfers s)), transfer_committed now f t a fn tn s).
Proof.
  unfold transfer. case_bool_decide as Ha; [done|]. run_sql.
  rewrite !select_balance_upsert.
  case_bool_decide as Hb; [done|].
  set (s1 := upsert_user now t tn (upsert_user now f fn s)).
  assert (has_user f s1) as Hf by (unfold s1; rewrite !has_user_upsert; auto).
  assert (has_user t s1) as Ht by (unfold s1; rewrite !has_user_upsert; auto).
  set (s2 := credit_balance now a t (debit_balance now a f s1)).
  assert (has_user f s2) as Hf2 by (unfold s2; by rewrite has_user_credit, has_user_debit).
  assert (has_user t s2) as Ht2 by (unfold s2; by rewrite has_user_credit, has_user_debit).
  assert (users s2 !! f ≠ None) as Hf3 by (destruct Hf2; congruence).
  assert (users s2 !! t ≠ None) as Ht3 by (destruct Ht2; congruence).
  unfold insert_transfer.
  rewrite !(bool_decide_eq_false_2 _ Hf3), !(bool_decide_eq_false_2 _ Ht3).
  unfold insert_transaction_row.
  do 2 (cbn [users payments transfers transactions];
        rewrite ?(bool_decide_eq_false_2 _ Hf3), ?(bool_decide_eq_false_2 _ Ht3)).
  rewrite <- app_assoc. reflexivity.
Qed.

Lemma mark_refund_cases now u c a s :
  mark_refund now u c a s =
    match select_payment_of_user c u s with
    | None => (Return false, s)
    | Some row =>
      if bool_decide (p_refunded row ≠ 0) then (Return false, s)
      else if bool_decide (p_amount row ≠ a) then (Return false, s)
      else if bool_decide (select_balance u s < a) then (Return false, s)
      else if bool_decide (Some c ∈ tx_charge_id <$> transactions s)
      then (Raise (IntegrityError "UNIQUE constraint failed: transactions.charge_id"), s)
      else if bool_decide (users s !! u = None) then (Raise fk_failed, s)
      else (Return true, refund_committed now u c a row s)
    end.
Proof.
  unfold mark_refund. run_sql.
  destruct (select_payment_of_user c u s) as [row|]; [|done].
  repeat (case_bool_decide; [done|]).
  unfold insert_transaction_row.
  cbn [debit_balance set_refunded users payments transfers transactions].
  case_bool_decide; [done|].
  rewrite (bool_decide_ext _ _ (lookup_alter_None _ _ _ _)).
  case_bool_decide; done.
Qed.

Lemma perform_commits now c s : commits now s c (perform now c s).
Proof.
  destruct c as [u n|u n a ch|f t a fn tn|u ch a]; unfold perform.
  - rewrite ensure_user_eq. constructor.
  - rewrite add_purchase_cases.
    destruct (select_payment_by_charge ch s) eqn:E; [constructor|].
    case_bool_decide; [constructor|].
    apply select_payment_by_charge_None in E. by constructor.
  - rewrite transfer_cases.
    repeat (case_bool_decide; [constructor|]). constructor; lia.
  - rewrite mark_refund_cases.
    destruct (select_payment_of_user ch u s) as [row|] eqn:E; [|constructor].
    repeat (case_bool_decide; [constructor|]).
    constructor; try done; try lia.
    unfold has_user. destruct (users s !! u); [eauto|done].
Qed.

Lemma run_snoc h now c s : run (h ++ [(now, c)]) s = perform now c (run h s).
Proof. unfold run. by rewrite foldl_app. Qed.

(** Induction over histories, last call first. *)
Lemma reachable_ind_commits (P : db → Prop) :
  P empty_db →
  (∀ now c s s', P s → commits now s c s' → P s') →
  ∀ s, reachable s → P s.
Proof.
  intros H0 Hstep s [h ->]. induction h as [|[now c] h IH] using rev_ind; [done|].
  rewrite run_snoc. eapply Hstep; [apply IH|apply perform_commits].
Qed.

(** ** Balances of the committed stores *)

Lemma select_balance_users v s s' : users s = users s' → select_balance v s = select_balance v s'.
Proof. unfold select_balance. by intros ->. Qed.

Lemma purchase_committed_balance now u n a ch s v :
  select_balance v (purchase_committed now u n a ch s)
  = select_balance v s + (if decide (v = u) then a else 0).
Proof.
  unfold purchase_committed.
  rewrite (select_balance_users v _ (credit_balance now a u (upsert_user now u n s))) by done.
  rewrite select_balance_credit by (apply has_user_upsert; auto).
  by rewrite select_balance_upsert.
Qed.

Lemma transfer_committed_balance now f t a fn tn s v :
  select_balance v (transfer_committed now f t a fn tn s)
  = select_balance v s - (if decide (v = f) then a else 0) + (if decide (v = t) then a else 0).
Proof.
  unfold transfer_committed.
  set (s1 := upsert_user now t tn (upsert_user now f fn s)).
  rewrite (select_balance_users v _ (credit_balance now a t (debit_balance now a f s1))) by done.
  assert (has_user f s1) by (unfold s1; rewrite !has_user_upsert; auto).
  assert (has_user t s1) by (unfold s1; rewrite !has_user_upsert; auto).
  rewrite select_balance_credit by (by apply has_user_debit).
  rewrite select_balance_debit by done.
  unfold s1. by rewrite !select_balance_upsert.
Qed.

Lemma refund_committed_balance now u ch a row s v :
  has_user u s →
  select_balance v (refund_committed now u ch a row s)
  = select_balance v s - (if decide (v = u) then a else 0).
Proof.
  intros Hu. unfold refund_committed.
  rewrite (select_balance_users v _ (debit_balance now a u (set_refunded (p_id row) s))) by done.
  rewrite select_balance_debit by done.
  by apply f_equal2; [apply select_balance_users|].
Qed.

(** ** The ledger sum *)

Lemma ledger_sum_app u l1 l2 : ledger_sum u (l1 ++ l2) = ledger_sum u l1 + ledger_sum u l2.
Proof.
  unfold ledger_sum. rewrite filter_app, fmap_app.
  induction (signed_amount <$> filter (λ e, tx_user_id e = u) l1) as [|x l IH]; simpl; lia.
Qed.

Lemma ledger_sum_singleton u e :
  ledger_sum u [e] = if decide (tx_user_id e = u) then signed_amount e else 0.
Proof.
  unfold ledger_sum. rewrite filter_cons, filter_nil.
  destruct (decide (tx_user_id e = u)); simpl; lia.
Qed.

Lemma commits_balance_is_ledger_sum now c s s' :
  commits now s c s' → balance_is_ledger_sum s → balance_is_ledger_sum s'.
Proof.
  intros Hc Hs v. specialize (Hs v).
  destruct Hc as [c|u n|u n a ch ? ?|f t a fn tn ? ?|u ch a row ? ? ? ? ? Hu]; [done|..].
  - by rewrite select_balance_upsert.
  - rewrite purchase_committed_balance. unfold purchase_committed. simpl transactions.
    rewrite ledger_sum_app, ledger_sum_singleton. unfold signed_amount. simpl.
    repeat case_decide; subst; try done; lia.
  - rewrite transfer_committed_balance. unfold transfer_committed. simpl transactions.
    change [?x; ?y] with ([x] ++ [y]).
    rewrite !ledger_sum_app, !ledger_sum_singleton. unfold signed_amount. simpl.
    repeat case_decide; subst; try done; lia.
  - rewrite refund_committed_balance by done. unfold refund_committed. simpl transactions.
    rewrite ledger_sum_app, ledger_sum_singleton. unfold signed_amount. simpl.
    repeat case_decide; subst; try done; lia.
Qed.

(** Every row a call appends to the ledger carries the balance its account
    has in the store the call commits. *)
Lemma commits_balance_after now c s s' :
  commits now s c s' →
  ∃ new, transactions s' = transactions s ++ new
         ∧ Forall (λ e, tx_balance_after e = Some (select_balance (tx_user_id e) s')) new.
Proof.
  intros Hc.
  destruct Hc as [c|u n|u n a ch ? ?|f t a fn tn ? ?|u ch a row ? ? ? ? ? Hu].
  - exists []. by rewrite app_nil_r.
  - exists []. by rewrite app_nil_r.
  - eexists [_]. split; [reflexivity|]. repeat constructor.
  - eexists [_; _]. split; [reflexivity|]. repeat constructor.
  - eexists [_]. split; [reflexivity|]. repeat constructor.
Qed.

(** ** Charge ids *)

Lemma set_refunded_charges id s :
  p_charge_id <$> payments (set_refunded id s) = p_charge_id <$> payments s.
Proof.
  unfold set_refunded. simpl. rewrite <- list_fmap_compose.
  apply list_fmap_ext. intros i p _. simpl. by case_bool_decide.
Qed.

Lemma commits_charge_kept now c s s' ch :
  commits now s c s' →
  ch ∈ p_charge_id <$> payments s → ch ∈ p_charge_id <$> payments s'.
Proof.
  intros Hc Hin.
  destruct Hc as [c|u n|u n a ch' ? ?|f t a fn tn ? ?|u ch' a row ? ? ? ? ? Hu]; try done.
  - unfold purchase_committed. simpl. rewrite fmap_app. apply elem_of_app. by left.
  - unfold refund_committed.
    change (payments _) with (payments (set_refunded (p_id row) s)).
    by rewrite set_refunded_charges.
Qed.

Lemma run_charge_kept h s ch :
  ch ∈ p_charge_id <$> payments s → ch ∈ p_charge_id <$> payments (run h s).
Proof.
  induction h as [|[now c] h IH] using rev_ind; [done|].
  intros Hin. rewrite run_snoc. eapply commits_charge_kept; [apply perform_commits|auto].
Qed.

Lemma commits_ledger_charges_recorded now c s s' :
  commits now s c s' → ledger_charges_recorded s → ledger_charges_recorded s'.
Proof.
  intros Hc Hs ch.
  destruct Hc as [c|u n|u n a ch' ? ?|f t a fn tn ? ?|u ch' a row Hrow ? ? ? ? Hu];
    [apply Hs|apply Hs|..].
  - unfold purchase_committed. simpl. rewrite !fmap_app, !elem_of_app. simpl.
    rewrite !list_elem_of_singleton. intros [?|?]; [left; by apply Hs|right; congruence].
  - unfold transfer_committed. simpl. rewrite fmap_app, elem_of_app. simpl.
    intros [?|Hin]; [by apply Hs|].
    apply elem_of_cons in Hin as [?|Hin]; [done|].
    by apply list_elem_of_singleton in Hin.
  - unfold refund_committed.
    change (payments _) with (payments (set_refunded (p_id row) s)).
    rewrite set_refunded_charges. simpl. rewrite fmap_app, elem_of_app. simpl.
    rewrite list_elem_of_singleton. intros [?|E]; [by apply Hs|].
    apply head_filter_Some in Hrow as [Hin [<- _]].
    apply list_elem_of_fmap. exists row. split; [congruence|done].
Qed.

Lemma reachable_ledger_charges_recorded s : reachable s → ledger_charges_recorded s.
Proof.
  revert s. apply reachable_ind_commits.
  - intros ch Hin. simpl in Hin. by apply elem_of_nil in Hin.
  - intros now c s s' Hs Hc. by eapply commits_ledger_charges_recorded.
Qed.

(** ** Balances never go below zero *)

Lemma commits_nonneg now c s s' :
  commits now s c s' → purchase_amount_ok c →
  (∀ u, 0 ≤ select_balance u s) → ∀ u, 0 ≤ select_balance u s'.
Proof.
  intros Hc Hok Hs v. pose proof (Hs v).
  destruct Hc as [c|u n|u n a ch ? ?|f t a fn tn ? ?|u ch a row ? ? ? ? ? Hu]; [done|..].
  - by rewrite select_balance_upsert.
  - rewrite purchase_committed_balance. simpl in Hok. case_decide; lia.
  - rewrite transfer_committed_balance. pose proof (Hs f).
    repeat case_decide; subst; lia.
  - rewrite refund_committed_balance by done. pose proof (Hs u).
    case_decide; subst; lia.
Qed.

Lemma run_nonneg h u :
  Forall (λ tc, purchase_amount_ok tc.2) h → 0 ≤ select_balance u (run h empty_db).
Proof.
  revert u. induction h as [|[now c] h IH] using rev_ind; intros u Hok; [done|].
  rewrite Forall_app, Forall_singleton in Hok. destruct Hok as [Hh Hc].
  rewrite run_snoc. eapply commits_nonneg; [apply perform_commits|exact Hc|].
  intros v. by apply IH.
Qed.

(** * The claims *)

Ltac by_compute := refine (bool_decide_unpack _ _); vm_compute; exact I.

(** ** Purchases *)

(** C1. [add_purchase] is idempotent under [charge_id].  In a reachable
    store a call with a charge id not yet in [payments] returns [True],
    appends exactly one payment row and one purchase ledger row, and adds
    the amount to the account's balance once.  After that, and after any
    further history, every call with the same charge id returns [False]
    and leaves the whole store as it was. *)
Theorem add_purchase_idempotent now u n a ch s :
  reachable s →
  ch ∉ p_charge_id <$> payments s →
  ∃ s1,
    add_purchase now u n a ch s = (Return true, s1)
    ∧ payments s1
      = payments s ++ [PaymentRow (next_id (p_id <$> payments s)) u a "XTR" ch 0 now]
    ∧ (∀ v, select_balance v s1 = select_balance v s + (if decide (v = u) then a else 0))
    ∧ transactions s1
      = transactions s ++
          [TxRow (next_id (tx_id <$> transactions s)) u purchase a None (Some ch)
                 (Some purchase_description) (Some (select_balance u s + a)) now]
    ∧ transfers s1 = transfers s
    ∧ ∀ h now' u' n' a',
        add_purchase now' u' n' a' ch (run h s1) = (Return false, run h s1).
Proof.
  intros Hs Hfresh. exists (purchase_committed now u n a ch s).
  assert (Some ch ∉ tx_charge_id <$> transactions s) as Hledger.
  { intros Hin. by apply reachable_ledger_charges_recorded in Hin. }
  split; [|split; [|split; [|split; [|split]]]].
  - rewrite add_purchase_cases.
    apply select_payment_by_charge_None in Hfresh. rewrite Hfresh.
    by rewrite bool_decide_eq_false_2.
  - done.
  - intros v. apply purchase_committed_balance.
  - unfold purchase_committed. simpl. do 4 f_equal.
    rewrite select_balance_credit by (apply has_user_upsert; auto).
    rewrite select_balance_upsert. by case_decide.
  - done.
  - intros h now' u' n' a'. rewrite add_purchase_cases.
    destruct (select_payment_by_charge ch (run h (purchase_committed now u n a ch s)))
      eqn:E; [done|].
    apply select_payment_by_charge_None in E. destruct E.
    apply run_charge_kept. unfold purchase_committed. simpl.
    rewrite fmap_app. apply elem_of_app. right. simpl. left.
Qed.

Lemma add_purchase_idempotent_witness :
  reachable (run bob_paid empty_db)
  ∧ ("chg2" ∉ p_charge_id <$> payments (run bob_paid empty_db))
  ∧ ∃ s1, add_purchase 101 7 None 25 "chg2" (run bob_paid empty_db) = (Return true, s1)
          ∧ select_balance 7 s1 = 75
          ∧ add_purchase 102 7 None 25 "chg2" s1 = (Return false, s1).
Proof.
  assert (reachable (run bob_paid empty_db)) as Hr by (by exists bob_paid).
  assert ("chg2" ∉ p_charge_id <$> payments (run bob_paid empty_db)) as Hf by by_compute.
  split; [exact Hr|]. split; [exact Hf|].
  destruct (add_purchase_idempotent 101 7 None 25 "chg2" _ Hr Hf)
    as (s1 & E & _ & Hbal & _ & _ & Hagain).
  exists s1. split; [exact E|]. split; [by rewrite Hbal|].
  apply (Hagain [] 102 7 None 25).
Defined.

(** ** The ledger *)

(** C2. After any history of calls the stored balance of every account is
    the sum of the signed amounts of its ledger rows, any call preserves
    that equation, and every ledger row a call appends carries in
    [balance_after] the balance its account has once the call has written
    the balances. *)
Theorem balance_is_ledger_sum_always :
  (∀ h u, select_balance u (run h empty_db) = ledger_sum u (transactions (run h empty_db)))
  ∧ (∀ now c s, balance_is_ledger_sum s → balance_is_ledger_sum (perform now c s))
  ∧ (∀ now c s, ∃ new,
       transactions (perform now c s) = transactions s ++ new
       ∧ Forall (λ e, tx_balance_after e
                      = Some (select_balance (tx_user_id e) (perform now c s))) new).
Proof.
  split; [|split].
  - intros h. induction h as [|[now c] h IH] using rev_ind; [done|].
    rewrite run_snoc. eapply commits_balance_is_ledger_sum; [apply perform_commits|exact IH].
  - intros now c s. eapply commits_balance_is_ledger_sum, perform_commits.
  - intros now c s. eapply commits_balance_after, perform_commits.
Qed.

Lemma balance_is_ledger_sum_always_witness :
  balance_is_ledger_sum (run bob_paid empty_db)
  ∧ balance_is_ledger_sum (perform 101 (Transfer 7 8 20 None None) (run bob_paid empty_db)).
Proof.
  destruct balance_is_ledger_sum_always as (Hrun & Hstep & _).
  assert (balance_is_ledger_sum (run bob_paid empty_db)) as H0 by (intros u; apply Hrun).
  split; [exact H0|]. apply Hstep, H0.
Defined.

(** ** Transfers *)

(** C3. [transfer] raises exactly when the amount is not positive or the
    sender's balance is below the amount; in both cases the store is left
    as it was.  Otherwise it returns the id of the one transfer row it
    appends, takes the amount from the sender and gives it to the
    receiver, leaves the sender's balance non-negative, and appends one
    [gift_out] row for the sender and one [gift_in] row for the receiver. *)
Theorem transfer_guarded now f t a fn tn s :
  (a ≤ 0 → transfer now f t a fn tn s = (Raise (ValueError "amount must be positive"), s))
  ∧ (0 < a → select_balance f s < a →
     transfer now f t a fn tn s = (Raise (ValueError "insufficient_funds"), s))
  ∧ ((∃ e, (transfer now f t a fn tn s).1 = Raise e) ↔ a ≤ 0 ∨ select_balance f s < a)
  ∧ (0 < a → a ≤ select_balance f s →
     ∃ s' sent received,
       transfer now f t a fn tn s = (Return (next_id (t_id <$> transfers s)), s')
       ∧ (∀ v, select_balance v s'
               = select_balance v s - (if decide (v = f) then a else 0)
                                    + (if decide (v = t) then a else 0))
       ∧ 0 ≤ select_balance f s'
       ∧ transactions s' = transactions s ++ [sent; received]
       ∧ (tx_user_id sent, tx_kind sent, tx_amount sent, tx_related_user_id sent)
         = (f, gift_out, a, Some t)
       ∧ (tx_user_id received, tx_kind received, tx_amount received,
          tx_related_user_id received) = (t, gift_in, a, Some f)
       ∧ transfers s' = transfers s ++ [TransferRow (next_id (t_id <$> transfers s)) f t a now]
       ∧ payments s' = payments s).
Proof.
  rewrite transfer_cases. split; [|split; [|split]].
  - intros Ha. by rewrite bool_decide_eq_true_2.
  - intros Ha Hb. rewrite bool_decide_eq_false_2 by lia. by rewrite bool_decide_eq_true_2.
  - repeat case_bool_decide; simpl; split; try (intros [e ?]; done); try lia; eauto.
  - intros Ha Hb. rewrite !bool_decide_eq_false_2 by lia.
    eexists _, _, _. split; [reflexivity|].
    split; [apply transfer_committed_balance|].
    split; [rewrite transfer_committed_balance; repeat case_decide; lia|].
    split; [reflexivity|]. done.
Qed.

Lemma transfer_guarded_witness :
  transfer 101 7 8 0 None None (run bob_paid empty_db)
    = (Raise (ValueError "amount must be positive"), run bob_paid empty_db)
  ∧ transfer 101 7 8 60 None None (run bob_paid empty_db)
    = (Raise (ValueError "insufficient_funds"), run bob_paid empty_db)
  ∧ ∃ s', (transfer 101 7 8 20 None None (run bob_paid empty_db)).2 = s'
          ∧ select_balance 7 s' = 30 ∧ select_balance 8 s' = 20.
Proof.
  split; [|split].
  - apply (transfer_guarded 101 7 8 0 None None (run bob_paid empty_db)). by_compute.
  - apply (transfer_guarded 101 7 8 60 None None (run bob_paid empty_db)); by_compute.
  - destruct (transfer_guarded 101 7 8 20 None None (run bob_paid empty_db))
      as (_ & _ & _ & Hok).
    destruct Hok as (s' & sent & received & E & Hbal & _); [by_compute|by_compute|].
    exists s'. split; [by rewrite E|]. by rewrite !Hbal.
Defined.

(** C10. A transfer from an account to itself is accepted: with
    [0 < amount ≤ balance] it returns a transfer id, the balance ends where
    it started, and one [gift_out] row, one [gift_in] row (both for that
    account) and one transfer row are appended. *)
Theorem self_transfer_accepted now u a fn tn s :
  0 < a → a ≤ select_balance u s →
  ∃ s' sent received,
    transfer now u u a fn tn s = (Return (next_id (t_id <$> transfers s)), s')
    ∧ select_balance u s' = select_balance u s
    ∧ transactions s' = transactions s ++ [sent; received]
    ∧ (tx_user_id sent, tx_kind sent, tx_amount sent, tx_related_user_id sent)
      = (u, gift_out, a, Some u)
    ∧ (tx_user_id received, tx_kind received, tx_amount received,
       tx_related_user_id received) = (u, gift_in, a, Some u)
    ∧ transfers s' = transfers s ++ [TransferRow (next_id (t_id <$> transfers s)) u u a now].
Proof.
  intros Ha Hb. rewrite transfer_cases, !bool_decide_eq_false_2 by lia.
  eexists _, _, _. split; [reflexivity|].
  split; [rewrite transfer_committed_balance; case_decide; [lia|done]|].
  split; [reflexivity|]. done.
Qed.

Lemma self_transfer_accepted_witness :
  ∃ s', (transfer 101 7 7 20 None None (run bob_paid empty_db)).2 = s'
        ∧ select_balance 7 s' = 50
        ∧ length (transactions s') = 3%nat.
Proof.
  destruct (self_transfer_accepted 101 7 20 None None (run bob_paid empty_db))
    as (s' & sent & received & E & Hbal & Htx & _); [by_compute|by_compute|].
  exists s'. split; [by rewrite E|]. split; [by rewrite Hbal|]. by rewrite Htx.
Defined.

(** ** Refunds *)

Lemma commits_payments_in_ledger now c s s' :
  commits now s c s' → payments_in_ledger s → payments_in_ledger s'.
Proof.
  intros Hc Hs ch.
  destruct Hc as [c|u n|u n a ch' ? ?|f t a fn tn ? ?|u ch' a row Hrow ? ? ? ? Hu];
    [apply Hs|apply Hs|..].
  - unfold purchase_committed. simpl. rewrite !fmap_app, !elem_of_app. simpl.
    rewrite !list_elem_of_singleton. intros [?|?]; [left; by apply Hs|right; congruence].
  - unfold transfer_committed. simpl. rewrite fmap_app, elem_of_app.
    intros ?. left. by apply Hs.
  - unfold refund_committed.
    change (payments _) with (payments (set_refunded (p_id row) s)).
    rewrite set_refunded_charges. simpl. rewrite fmap_app, elem_of_app.
    intros ?. left. by apply Hs.
Qed.

(** In a reachable store [mark_refund] never returns [True] and never
    changes the store: past its four refusals it raises on the ledger's
    unique charge-id index. *)
Lemma mark_refund_never_commits now u ch a s :
  reachable s →
  (mark_refund now u ch a s).2 = s ∧ (mark_refund now u ch a s).1 ≠ Return true.
Proof.
  intros Hs.
  assert (payments_in_ledger s) as Hl.
  { revert s Hs. apply reachable_ind_commits.
    - intros c Hin. simpl in Hin. by apply elem_of_nil in Hin.
    - intros ? ? ? ? ? ?. by eapply commits_payments_in_ledger. }
  rewrite mark_refund_cases.
  destruct (select_payment_of_user ch u s) as [row|] eqn:E; [|done].
  assert (Some ch ∈ tx_charge_id <$> transactions s) as Hin.
  { apply head_filter_Some in E as [Hin [<- _]].
    apply Hl, list_elem_of_fmap. by exists row. }
  rewrite (bool_decide_eq_true_2 _ Hin).
  repeat (case_bool_decide; [done|]). done.
Qed.

Lemma mark_refund_never_commits_witness :
  mark_refund 101 7 "chg1" 50 (run bob_paid empty_db)
  = (Raise (IntegrityError "UNIQUE constraint failed: transactions.charge_id"),
     run bob_paid empty_db).
Proof.
  pose proof (mark_refund_never_commits 101 7 "chg1" 50 (run bob_paid empty_db)) as H.
  destruct H as [_ _]; [by exists bob_paid|]. reflexivity.
Defined.

(** C4, counterexample.  The four refusals of [mark_refund] (no such
    payment, already refunded, another amount, balance too low) hand the
    caller one and the same result, [False]. *)
Lemma mark_refund_failures_indistinguishable :
  let s := run bob_paid empty_db in
  (mark_refund 101 7 "nope" 50 s).1 = Return false
  ∧ (mark_refund 101 7 "chg1" 50 (set_refunded 1 s)).1 = Return false
  ∧ (mark_refund 101 7 "chg1" 40 s).1 = Return false
  ∧ (mark_refund 102 7 "chg1" 50 (run [(101, Transfer 7 8 20 None None)] s)).1
    = Return false.
Proof. vm_compute. done. Qed.

(** C4, amended.  [mark_refund] returns [False] and leaves the store as
    it was when no payment row matches (user_id, charge_id), when the
    matching row is already refunded, when its amount differs from the
    requested one, or when the balance is below the amount.  When it
    returns [True] it has set [refunded] on that row, taken the amount
    from the balance and appended one refund row to the ledger. *)
Theorem mark_refund_refusals now u ch a s :
  ((∀ p, p ∈ payments s → ¬ (p_charge_id p = ch ∧ p_user_id p = u)) →
   mark_refund now u ch a s = (Return false, s))
  ∧ (∀ row, select_payment_of_user ch u s = Some row →
       p_refunded row ≠ 0 ∨ p_amount row ≠ a ∨ select_balance u s < a →
       mark_refund now u ch a s = (Return false, s))
  ∧ (∀ s', mark_refund now u ch a s = (Return true, s') →
       ∃ row, select_payment_of_user ch u s = Some row
         ∧ p_refunded row = 0 ∧ p_amount row = a ∧ a ≤ select_balance u s
         ∧ payments s' = payments (set_refunded (p_id row) s)
         ∧ (∀ v, select_balance v s'
                 = select_balance v s - (if decide (v = u) then a else 0))
         ∧ transactions s'
           = transactions s ++
               [TxRow (next_id (tx_id <$> transactions s)) u refund a None (Some ch)
                      (Some refund_description) (Some (select_balance u s - a)) now]
         ∧ transfers s' = transfers s).
Proof.
  rewrite mark_refund_cases. split; [|split].
  - intros Hnone.
    assert (select_payment_of_user ch u s = None) as ->; [|done].
    by apply head_filter_None.
  - intros row -> Hbad.
    repeat (case_bool_decide; [done|]). lia.
  - intros s'. destruct (select_payment_of_user ch u s) as [row|]; [|done].
    repeat (case_bool_decide; [done|]). intros [= <-].
    assert (has_user u s) as Hu by (unfold has_user; destruct (users s !! u); [eauto|done]).
    exists row. split; [done|]. repeat (split; [lia|]).
    split; [done|]. split; [intros v; by apply refund_committed_balance|].
    split; [|done].
    unfold refund_committed. simpl. do 4 f_equal.
    rewrite select_balance_debit by done.
    rewrite (select_balance_users u _ s) by done. by case_decide.
Qed.

Lemma mark_refund_refusals_witness :
  mark_refund 101 8 "chg1" 50 (run bob_paid empty_db) = (Return false, run bob_paid empty_db)
  ∧ mark_refund 101 7 "chg1" 40 (run bob_paid empty_db)
    = (Return false, run bob_paid empty_db).
Proof.
  split.
  - apply (mark_refund_refusals 101 8 "chg1" 50 (run bob_paid empty_db)).
    intros p Hp [_ Hu].
    change (payments (run bob_paid empty_db))
      with [PaymentRow 1 7 50 "XTR" "chg1" 0 100] in Hp.
    apply list_elem_of_singleton in Hp. by subst.
  - destruct (mark_refund_refusals 101 7 "chg1" 40 (run bob_paid empty_db))
      as (_ & Hbad & _).
    apply (Hbad (PaymentRow 1 7 50 "XTR" "chg1" 0 100)).
    + reflexivity.
    + right. left. by_compute.
Defined.

(** ** Accounts *)

(** C5, counterexample.  An account known as bob is ensured again with the
    empty string as name: the stored name becomes empty. *)
Lemma ensure_user_empty_name_replaces :
  let s := (ensure_user 100 7 (Some "bob") empty_db).2 in
  username <$> users s !! 7 = Some (Some "bob")
  ∧ username <$> users (ensure_user 101 7 (Some "") s).2 !! 7 = Some (Some "").
Proof. vm_compute. done. Qed.

(** C5, amended.  [ensure_user] is an idempotent upsert.  An absent
    account is created with balance 0 and the given name.  For a present
    account the stored name is replaced exactly when the new one is not
    null (an empty string, not being null, does replace it) and is kept
    when the new one is null; the balance of every account is left as it
    was, and so are the other accounts and relations. *)
Theorem ensure_user_upsert now u n s :
  ∃ s',
    ensure_user now u n s = (Return tt, s')
    ∧ (users s !! u = None → users s' !! u = Some (UserRow n 0 now now))
    ∧ (∀ r, users s !! u = Some r →
         ∃ r', users s' !! u = Some r'
           ∧ balance r' = balance r
           ∧ (n = None → username r' = username r)
           ∧ (∀ x, n = Some x → username r' = Some x))
    ∧ (∀ v, v ≠ u → users s' !! v = users s !! v)
    ∧ (∀ v, select_balance v s' = select_balance v s)
    ∧ (payments s', transfers s', transactions s') = (payments s, transfers s, transactions s)
    ∧ ensure_user now u n s' = (Return tt, s').
Proof.
  exists (upsert_user now u n s). split; [apply ensure_user_eq|].
  split; [|split; [|split; [|split; [|split]]]].
  - intros E. unfold upsert_user. simpl. by rewrite E, lookup_insert_eq.
  - intros r E. unfold upsert_user. simpl. rewrite E, lookup_insert_eq.
    eexists. split; [done|]. simpl. split; [done|]. by split; intros; subst.
  - intros v Hv. unfold upsert_user. simpl. by rewrite lookup_insert_ne.
  - intros v. apply select_balance_upsert.
  - done.
  - rewrite ensure_user_eq. f_equal. unfold upsert_user. simpl.
    rewrite lookup_insert_eq, insert_insert_eq.
    destruct (users s !! u) as [r|]; simpl; by destruct n.
Qed.

Lemma ensure_user_upsert_witness :
  ∃ r', users (ensure_user 101 7 None (run bob_paid empty_db)).2 !! 7 = Some r'
        ∧ username r' = Some "bob" ∧ balance r' = 50.
Proof.
  destruct (ensure_user_upsert 101 7 None (run bob_paid empty_db))
    as (s' & E & _ & Hpresent & _).
  destruct (Hpresent (UserRow (Some "bob") 50 100 100)) as (r' & Hr' & Hb & Hn & _);
    [reflexivity|].
  exists r'. rewrite E. split; [exact Hr'|]. split; [by rewrite Hn|exact Hb].
Defined.

(** C6, counterexample.  [add_purchase] does not look at the sign of the
    amount: a purchase of -5 stars by a new account is accepted, and
    [get_balance] then returns -5. *)
Lemma get_balance_negative :
  (add_purchase 100 7 None (-5) "n" empty_db).1 = Return true
  ∧ get_balance 7 (run negative_purchase empty_db)
    = (Return (-5), run negative_purchase empty_db).
Proof. split; reflexivity. Qed.

(** C6, amended.  [get_balance] returns 0 for an id without account and
    the stored balance otherwise, and leaves the store, [users] included,
    as it was.  After any history whose purchases have positive amounts
    the balance it returns is never negative. *)
Theorem get_balance_reads u s :
  (users s !! u = None → get_balance u s = (Return 0, s))
  ∧ (∀ r, users s !! u = Some r → get_balance u s = (Return (balance r), s))
  ∧ (∀ h, s = run h empty_db →
       Forall (λ tc, purchase_amount_ok tc.2) h →
       ∃ b, get_balance u s = (Return b, s) ∧ 0 ≤ b).
Proof.
  rewrite get_balance_eq. unfold select_balance. split; [|split].
  - by intros ->.
  - by intros r ->.
  - intros h -> Hok. eexists. split; [reflexivity|]. by apply run_nonneg.
Qed.

Lemma get_balance_reads_witness :
  get_balance 9 (run bob_paid empty_db) = (Return 0, run bob_paid empty_db)
  ∧ ∃ b, get_balance 7 (run bob_paid empty_db) = (Return b, run bob_paid empty_db) ∧ 0 ≤ b.
Proof.
  split.
  - apply (get_balance_reads 9 (run bob_paid empty_db)). reflexivity.
  - destruct (get_balance_reads 7 (run bob_paid empty_db)) as (_ & _ & Hpos).
    apply (Hpos bob_paid); [reflexivity|]. by repeat constructor.
Defined.

(** ** Listing the ledger *)

#[global] Instance tx_newest_first_total : Total tx_newest_first.
Proof. intros a b. unfold tx_newest_first. lia. Qed.

#[global] Instance tx_newest_first_trans : Transitive tx_newest_first.
Proof. intros a b c. unfold tx_newest_first. lia. Qed.

Lemma StronglySorted_sublist {A} (R : relation A) (l1 l2 : list A) :
  l1 `sublist_of` l2 → StronglySorted R l2 → StronglySorted R l1.
Proof.
  induction 1 as [|x l1 l2 Hsub IH|x l1 l2 Hsub IH]; intros Hs; [done|..].
  - apply StronglySorted_inv in Hs as [Hs Hall]. constructor; [auto|].
    rewrite Forall_forall in Hall. apply Forall_forall. intros y Hy.
    eapply Hall, elem_of_sublist; eauto.
  - apply StronglySorted_inv in Hs as [Hs _]. auto.
Qed.

Lemma limit_offset_sublist {A} limit offset (l : list A) :
  limit_offset limit offset l `sublist_of` l.
Proof.
  unfold limit_offset. case_bool_decide.
  - apply sublist_drop.
  - etrans; [apply sublist_take|apply sublist_drop].
Qed.

(** Pages of [p] rows at offsets 0, p, 2p, ... put end to end give back
    the whole list once they reach its length. *)
Lemma concat_pages {A} (p : nat) (l : list A) (n : nat) :
  (0 < p)%nat → (length l ≤ n * p)%nat →
  concat ((λ k, take p (drop (k * p) l)) <$> seq 0 n) = l.
Proof.
  intros Hp. revert l. induction n as [|n IH]; intros l Hlen.
  - destruct l; [done|simpl in Hlen; lia].
  - simpl seq. rewrite fmap_cons. simpl concat. rewrite <- fmap_S_seq, <- list_fmap_compose.
    rewrite (list_fmap_ext _ (λ k, take p (drop (k * p) (drop p l))) (seq 0 n))
      by (intros i k _; simpl; by rewrite drop_drop).
    rewrite IH by (rewrite length_drop; lia).
    simpl. apply take_drop.
Qed.

Lemma sorted_strict (l : list tx_row) :
  NoDup (tx_id <$> l) →
  StronglySorted tx_newest_first l →
  StronglySorted (λ a b, item_newer (tx_item_of a) (tx_item_of b)) l.
Proof.
  induction l as [|x l IH]; intros Hnd Hs; [constructor|].
  rewrite fmap_cons in Hnd. apply NoDup_cons in Hnd as [Hx Hnd].
  apply StronglySorted_inv in Hs as [Hs Hall].
  constructor; [auto|].
  apply Forall_forall. intros y Hy.
  rewrite Forall_forall in Hall. specialize (Hall y Hy).
  assert (tx_id y ≠ tx_id x).
  { intros E. apply Hx. rewrite <- E. apply list_elem_of_fmap. by exists y. }
  unfold tx_newest_first in Hall. unfold item_newer. simpl. lia.
Qed.

(** [id INTEGER PRIMARY KEY AUTOINCREMENT]: the ids of a reachable ledger
    are pairwise distinct. *)
Lemma NoDup_snoc_next_id (ids : list Z) : NoDup ids → NoDup (ids ++ [next_id ids]).
Proof.
  intros Hnd. apply NoDup_app. split; [done|]. split; [|apply NoDup_singleton].
  intros x Hx Hin. apply list_elem_of_singleton in Hin. subst.
  by apply next_id_fresh in Hx.
Qed.

Lemma reachable_tx_ids_NoDup s : reachable s → NoDup (tx_id <$> transactions s).
Proof.
  revert s. apply reachable_ind_commits; [constructor|].
  intros now c s s' Hnd Hc.
  destruct Hc as [c|u n|u n a ch ? ?|f t a fn tn ? ?|u ch a row ? ? ? ? ? Hu]; try done.
  - unfold purchase_committed. simpl. rewrite fmap_app. by apply NoDup_snoc_next_id.
  - unfold transfer_committed. simpl transactions.
    change [?x; ?y] with ([x] ++ [y]). rewrite app_assoc, (fmap_app _ (_ ++ _)).
    simpl. apply NoDup_snoc_next_id. rewrite fmap_app. by apply NoDup_snoc_next_id.
  - unfold refund_committed. simpl. rewrite fmap_app. by apply NoDup_snoc_next_id.
Qed.

Lemma listing_Permutation u s :
  listing u s ≡ₚ filter (λ e, tx_user_id e = u) (transactions s).
Proof. apply merge_sort_Permutation. Qed.

Lemma listing_NoDup u s :
  NoDup (tx_id <$> transactions s) → NoDup (tx_id <$> listing u s).
Proof.
  intros Hnd. rewrite listing_Permutation.
  apply (sublist_NoDup _ (tx_id <$> transactions s)); [exact Hnd|].
  apply fmap_sublist, sublist_filter.
Qed.

Lemma listing_sorted u s :
  NoDup (tx_id <$> transactions s) →
  StronglySorted item_newer (tx_item_of <$> listing u s).
Proof.
  intros Hnd.
  apply (StronglySorted_fmap _ (λ a b, item_newer (tx_item_of a) (tx_item_of b)));
    [done|].
  apply sorted_strict; [by apply listing_NoDup|].
  apply StronglySorted_merge_sort; apply _.
Qed.

Lemma select_transactions_page u s (k : nat) :
  select_transactions u 20 (20 * Z.of_nat k) s
  = take 20 (drop (k * 20) (tx_item_of <$> listing u s)).
Proof.
  unfold select_transactions, limit_offset, listing.
  rewrite bool_decide_eq_false_2 by lia.
  rewrite fmap_take, fmap_drop. do 2 f_equal. lia.
Qed.

(** C7.  [get_transactions] returns rows of the account in the order of
    (created_at, id), both descending, which is strict because ids are
    unique.  For a fixed store the pages of 20 rows at offsets 0, 20,
    40, ..., once they cover [count_transactions] rows, contain every
    ledger row of the account exactly once, in that order. *)
Theorem transactions_pagination u s (n : nat) :
  NoDup (tx_id <$> transactions s) →
  select_count u s ≤ 20 * Z.of_nat n →
  let pages := concat ((λ k, select_transactions u 20 (20 * Z.of_nat k) s) <$> seq 0 n) in
  (∀ limit offset,
     get_transactions u limit offset s = (Return (select_transactions u limit offset s), s)
     ∧ StronglySorted item_newer (select_transactions u limit offset s))
  ∧ count_transactions u s = (Return (select_count u s), s)
  ∧ Z.of_nat (length pages) = select_count u s
  ∧ NoDup pages
  ∧ (∀ e, e ∈ transactions s → tx_user_id e = u → tx_item_of e ∈ pages)
  ∧ (∀ i, i ∈ pages → ∃ e, e ∈ transactions s ∧ tx_user_id e = u ∧ i = tx_item_of e)
  ∧ StronglySorted item_newer pages.
Proof.
  intros Hnd Hn pages.
  assert (pages = tx_item_of <$> listing u s) as ->.
  { unfold pages.
    rewrite (list_fmap_ext _ (λ k, take 20 (drop (k * 20) (tx_item_of <$> listing u s)))
               (seq 0 n)) by (intros; apply select_transactions_page).
    apply concat_pages; [lia|].
    rewrite length_fmap, listing_Permutation. unfold select_count in Hn. lia. }
  split; [|split; [|split; [|split; [|split; [|split]]]]].
  - intros limit offset. split; [done|].
    unfold select_transactions.
    eapply StronglySorted_sublist; [|by apply (listing_sorted u)].
    apply fmap_sublist, limit_offset_sublist.
  - done.
  - rewrite length_fmap, listing_Permutation. done.
  - apply (NoDup_fmap_1 i_id). rewrite <- list_fmap_compose. by apply listing_NoDup.
  - intros e He Hu. apply list_elem_of_fmap. exists e. split; [done|].
    rewrite listing_Permutation. by apply list_elem_of_filter.
  - intros i Hi. apply list_elem_of_fmap in Hi as (e & -> & He).
    rewrite listing_Permutation in He. apply list_elem_of_filter in He as [? ?]. eauto.
  - by apply listing_sorted.
Qed.

Lemma transactions_pagination_witness :
  length (concat ((λ k, select_transactions 7 20 (20 * Z.of_nat k) (run bob_history empty_db))
                    <$> seq 0 1)) = 3%nat
  ∧ (i_id <$> select_transactions 7 20 0 (run bob_history empty_db)) = [3; 2; 1].
Proof.
  destruct (transactions_pagination 7 (run bob_history empty_db) 1) as (_ & _ & Hlen & _).
  - apply reachable_tx_ids_NoDup. by exists bob_history.
  - by_compute.
  - split; [|reflexivity]. apply Nat2Z.inj. rewrite Hlen. reflexivity.
Defined.

(** ** Refund candidates *)

#[global] Instance payment_newest_first_total : Total payment_newest_first.
Proof. intros a b. unfold payment_newest_first. lia. Qed.

#[global] Instance payment_newest_first_trans : Transitive payment_newest_first.
Proof. intros a b c. unfold payment_newest_first. lia. Qed.

(** The row the query of [get_payment_for_amount] yields. *)
Lemma select_refundable_spec u a s :
  match select_refundable u a s with
  | Some i =>
      ∃ p, p ∈ payments s ∧ i = payment_item_of p ∧ refundable u a p
           ∧ ∀ q, q ∈ payments s → refundable u a q → payment_newest_first p q
  | None => ∀ q, q ∈ payments s → ¬ refundable u a q
  end.
Proof.
  unfold select_refundable, limit_offset. rewrite bool_decide_eq_false_2 by lia.
  change (Z.to_nat 0) with 0%nat. change (Z.to_nat 1) with 1%nat. rewrite drop_0.
  pose proof (merge_sort_Permutation payment_newest_first
                (filter (refundable u a) (payments s))) as Hperm.
  pose proof (StronglySorted_merge_sort payment_newest_first
                (filter (refundable u a) (payments s))) as Hsorted.
  unfold order_by.
  destruct (merge_sort payment_newest_first (filter (refundable u a) (payments s)))
    as [|p rest]; simpl.
  - intros q Hq Hr. apply Permutation_nil_l in Hperm.
    assert (q ∈ filter (refundable u a) (payments s)) as Hin
      by (by apply list_elem_of_filter).
    rewrite <- Hperm in Hin. by apply elem_of_nil in Hin.
  - assert (p ∈ filter (refundable u a) (payments s)) as Hp
      by (rewrite <- Hperm; left).
    apply list_elem_of_filter in Hp as [Hr Hp].
    exists p. repeat (split; [done|]).
    intros q Hq Hrq.
    assert (q ∈ p :: rest) as Hin by (rewrite Hperm; by apply list_elem_of_filter).
    apply StronglySorted_inv in Hsorted as [_ Hall].
    apply elem_of_cons in Hin as [->|Hin]; [unfold payment_newest_first; lia|].
    rewrite Forall_forall in Hall. by apply Hall.
Qed.

(** C9.  [get_payment_for_amount] leaves the store as it was.  It returns
    [None] exactly when the account has no payment with the requested
    amount and [refunded = 0].  Otherwise the dictionary it returns holds
    the [id] and the [charge_id] of such a payment, the requested amount
    and [refunded = 0], and no other such payment has a later
    [created_at]; of those with the same [created_at] it is the one with
    the least [id].  A refunded payment is never returned. *)
Theorem get_payment_for_amount_finds u a s :
  ∃ res,
    get_payment_for_amount u a s = (Return res, s)
    ∧ match res with
      | Some i =>
          ∃ p, p ∈ payments s
               ∧ pi_id i = p_id p ∧ pi_charge_id i = p_charge_id p
               ∧ pi_refunded i = 0 ∧ pi_amount i = a
               ∧ p_user_id p = u ∧ p_amount p = a ∧ p_refunded p = 0
               ∧ ∀ q, q ∈ payments s →
                      p_user_id q = u → p_amount q = a → p_refunded q = 0 →
                      p_created_at q < p_created_at p
                      ∨ (p_created_at q = p_created_at p ∧ p_id p ≤ p_id q)
      | None =>
          ∀ q, q ∈ payments s →
               ¬ (p_user_id q = u ∧ p_amount q = a ∧ p_refunded q = 0)
      end.
Proof.
  exists (select_refundable u a s). split; [done|].
  pose proof (select_refundable_spec u a s) as Hspec.
  destruct (select_refundable u a s) as [i|]; [|exact Hspec].
  destruct Hspec as (p & Hp & -> & (Hu & Ha & Hr) & Hnew).
  exists p. simpl. repeat (split; [done|]).
  intros q Hq Hqu Hqa Hqr. by apply (Hnew q).
Qed.

Lemma get_payment_for_amount_finds_witness :
  ∃ i, (get_payment_for_amount 7 30 (run same_second empty_db)).1 = Return (Some i)
       ∧ pi_refunded i = 0 ∧ pi_amount i = 30 ∧ pi_id i ≤ 1.
Proof.
  destruct (get_payment_for_amount_finds 7 30 (run same_second empty_db))
    as (res & E & Hres).
  destruct res as [i|].
  - exists i. rewrite E. split; [reflexivity|].
    destruct Hres as (p & Hp & Hid & _ & Hr & Ha & _ & _ & _ & Hnew).
    repeat (split; [done|]). rewrite Hid.
    assert (PaymentRow 1 7 30 "XTR" "a" 0 100 ∈ payments (run same_second empty_db)) as H1
      by by_compute.
    assert (Forall (λ q, p_created_at q = 100) (payments (run same_second empty_db))) as Hall
      by by_compute.
    rewrite Forall_forall in Hall. specialize (Hall p Hp).
    specialize (Hnew _ H1 eq_refl eq_refl eq_refl). simpl in Hnew. lia.
  - exfalso. apply (Hres (PaymentRow 1 7 30 "XTR" "a" 0 100)); by_compute.
Defined.

(** ** Ranking *)

#[global] Instance balance_desc_total : Total balance_desc.
Proof. intros a b. unfold balance_desc. lia. Qed.

#[global] Instance balance_desc_trans : Transitive balance_desc.
Proof. intros a b c. unfold balance_desc. lia. Qed.

Lemma StronglySorted_lookup {A} (R : relation A) (l : list A) (i j : nat) x y :
  StronglySorted R l → l !! i = Some x → l !! j = Some y → (i < j)%nat → R x y.
Proof.
  intros Hs. revert i j.
  induction Hs as [|z l Hs IH Hall]; intros i j Hi Hj Hlt; [done|].
  destruct j as [|j]; [lia|]. destruct i as [|i]; simpl in *.
  - injection Hi as ->. rewrite Forall_forall in Hall.
    apply Hall. by eapply list_elem_of_lookup_2.
  - apply (IH i j); [done..|lia].
Qed.

(** C8, counterexample.  SQLite reads a negative [LIMIT] as no limit: with
    limit -1, [top_balances] returns both accounts of a store with two. *)
Lemma top_balances_negative_limit :
  top_balances (-1) (run two_tied empty_db)
  = (Return [TopItem 1 None 5; TopItem 2 None 5], run two_tied empty_db).
Proof. reflexivity. Qed.

(** C8, amended.  [top_balances] leaves the store as it was and lists
    accounts of the store with their names and balances, each at most
    once, in non-increasing order of balance, accounts of equal balance by
    ascending [user_id].  For a limit of at least 0 it lists
    [min limit n] of the [n] accounts, for a negative limit all of them,
    and an account left out comes, in that order, after every listed one.
    The order leaves no choice: the listing is the first rows of the one
    arrangement of the accounts by balance and then [user_id]. *)
Theorem top_balances_ranked limit s :
  top_balances limit s = (Return (select_top limit s), s)
  ∧ Z.of_nat (length (select_top limit s))
    = (if bool_decide (limit < 0) then Z.of_nat (size (users s))
       else Z.min limit (Z.of_nat (size (users s))))
  ∧ (0 ≤ limit → Z.of_nat (length (select_top limit s)) ≤ limit)
  ∧ StronglySorted (λ i j, top_balance j ≤ top_balance i) (select_top limit s)
  ∧ ties_by_ascending_id (select_top limit s)
  ∧ NoDup (top_user_id <$> select_top limit s)
  ∧ (∀ i, i ∈ select_top limit s →
       ∃ r, users s !! top_user_id i = Some r
            ∧ top_username i = username r ∧ top_balance i = balance r)
  ∧ (∀ i u r, i ∈ select_top limit s → users s !! u = Some r →
       TopItem u (username r) (balance r) ∉ select_top limit s →
       balance r < top_balance i ∨ (balance r = top_balance i ∧ top_user_id i < u))
  ∧ (∀ rows, rows ≡ₚ map_to_list (users s) → Sorted balance_desc rows →
       select_top limit s = top_item_of <$> limit_offset limit 0 rows).
Proof.
  pose proof (merge_sort_Permutation balance_desc (map_to_list (users s))) as Hperm.
  pose proof (StronglySorted_merge_sort balance_desc (map_to_list (users s))) as Hsorted.
  unfold select_top, order_by.
  set (rows := merge_sort balance_desc (map_to_list (users s))) in *.
  assert (NoDup (rows.*1)) as Hnd by (rewrite Hperm; apply NoDup_fst_map_to_list).
  assert (length rows = size (users s)) as Hsize
    by (by rewrite Hperm, length_map_to_list).
  assert (∀ x, x ∈ rows → users s !! x.1 = Some x.2) as Hrows.
  { intros [u r] Hx. apply elem_of_map_to_list. by rewrite <- Hperm. }
  split; [done|]. split; [|split; [|split; [|split; [|split; [|split; [|split]]]]]].
  - rewrite length_fmap. unfold limit_offset. change (Z.to_nat 0) with 0%nat.
    rewrite drop_0. case_bool_decide; [by rewrite Hsize|].
    rewrite length_take, Hsize. lia.
  - intros Hl. rewrite length_fmap. unfold limit_offset.
    rewrite bool_decide_eq_false_2 by lia. rewrite length_take. lia.
  - apply (StronglySorted_fmap _ balance_desc).
    + intros x y. unfold balance_desc. simpl. lia.
    + eapply StronglySorted_sublist; [apply limit_offset_sublist|done].
  - intros i j a b Hi Hj Hlt Hbal.
    rewrite list_lookup_fmap in Hi, Hj.
    destruct (limit_offset limit 0 rows !! i) as [x|] eqn:Hx; [|done].
    destruct (limit_offset limit 0 rows !! j) as [y|] eqn:Hy; [|done].
    injection Hi as <-. injection Hj as <-. simpl in *.
    assert (StronglySorted balance_desc (limit_offset limit 0 rows)) as Hs
      by (eapply StronglySorted_sublist; [apply limit_offset_sublist|done]).
    pose proof (StronglySorted_lookup _ _ _ _ _ _ Hs Hx Hy Hlt) as Hxy.
    assert (NoDup ((limit_offset limit 0 rows).*1)) as Hnd'.
    { apply (sublist_NoDup _ (rows.*1)); [done|].
      apply (fmap_sublist fst), limit_offset_sublist. }
    assert (x.1 ≠ y.1) as Hne.
    { intros Heq. assert (i = j); [|lia].
      eapply NoDup_lookup; [exact Hnd'|..]; rewrite list_lookup_fmap.
      - by rewrite Hx.
      - rewrite Hy. simpl. by rewrite Heq. }
    unfold balance_desc in Hxy. lia.
  - rewrite <- list_fmap_compose.
    apply (sublist_NoDup _ (rows.*1)); [done|].
    apply (fmap_sublist fst), limit_offset_sublist.
  - intros i Hi. apply list_elem_of_fmap in Hi as ([u r] & -> & Hin).
    exists r. split; [|done]. simpl.
    apply (Hrows (u, r)).
    eapply elem_of_sublist; [exact Hin|apply limit_offset_sublist].
  - intros i u r Hi Hu Hout.
    apply list_elem_of_fmap in Hi as (x & -> & Hx).
    assert ((u, r) ∈ rows) as Hin by (rewrite Hperm; by apply elem_of_map_to_list).
    assert (x.1 ≠ u) as Hne.
    { intros <-. destruct Hout. apply list_elem_of_fmap. exists x. split; [|done].
      assert (x ∈ rows) as Hxr
        by (eapply elem_of_sublist; [exact Hx|apply limit_offset_sublist]).
      apply Hrows in Hxr. rewrite Hu in Hxr. injection Hxr as ->. by destruct x. }
    unfold limit_offset in *. change (Z.to_nat 0) with 0%nat in *. rewrite drop_0 in *.
    case_bool_decide.
    { destruct Hout. apply list_elem_of_fmap. by exists (u, r). }
    rewrite <- (take_drop (Z.to_nat limit) rows) in Hin, Hsorted.
    apply elem_of_app in Hin as [Hin|Hin].
    { destruct Hout. apply list_elem_of_fmap. by exists (u, r). }
    apply (StronglySorted_app_1_elem_of _ _ _ x (u, r)) in Hsorted; [|done..].
    unfold balance_desc in Hsorted. simpl in *. lia.
  - intros rows' Hperm' Hsorted'. f_equal. f_equal. symmetry.
    apply (Sorted_unique_strong balance_desc); [|done|by apply Sorted_merge_sort, _|].
    + intros [u r] [u' r'] Hx Hx' Hxy Hyx.
      rewrite Hperm' in Hx. fold rows in Hx'. apply Hrows in Hx'.
      apply elem_of_map_to_list in Hx. simpl in *.
      assert (u = u') as <- by (unfold balance_desc in *; simpl in *; lia).
      rewrite Hx in Hx'. by injection Hx' as <-.
    + by rewrite Hperm'.
Qed.

Lemma top_balances_ranked_witness :
  Z.of_nat (length (select_top 1 (run two_tied empty_db))) ≤ 1
  ∧ ties_by_ascending_id (select_top 10 (run two_tied empty_db)).
Proof.
  split.
  - destruct (top_balances_ranked 1 (run two_tied empty_db)) as (_ & _ & Hlen & _).
    apply Hlen. by_compute.
  - apply (top_balances_ranked 10 (run two_tied empty_db)).
Defined.

(** * Further properties of the store *)

(** ** Failure leaves no trace *)

(** A call of [add_purchase], [transfer] or [mark_refund] that does not
    report success, be it by returning [False] or by raising, leaves the
    store exactly as it was: no method commits part of its writes. *)
Theorem failed_call_changes_nothing now s :
  (∀ u n a ch r s', add_purchase now u n a ch s = (r, s') → r ≠ Return true → s' = s)
  ∧ (∀ f t a fn tn e s', transfer now f t a fn tn s = (Raise e, s') → s' = s)
  ∧ (∀ u ch a r s', mark_refund now u ch a s = (r, s') → r ≠ Return true → s' = s).
Proof.
  split; [|split].
  - intros u n a ch r s'. rewrite add_purchase_cases.
    destruct (select_payment_by_charge ch s); [by intros [= <- <-]|].
    case_bool_decide; intros [= <- <-]; done.
  - intros f t a fn tn e s'. rewrite transfer_cases.
    repeat case_bool_decide; intros [= <- <-] || intros [=]; done.
  - intros u ch a r s'. rewrite mark_refund_cases.
    destruct (select_payment_of_user ch u s); [|by intros [= <- <-]].
    repeat case_bool_decide; intros [= <- <-]; done.
Qed.

Lemma failed_call_changes_nothing_witness :
  (transfer 101 7 8 60 None None (run bob_paid empty_db)).2 = run bob_paid empty_db.
Proof.
  destruct (failed_call_changes_nothing 101 (run bob_paid empty_db)) as (_ & Htransfer & _).
  apply (Htransfer 7 8 60 None None (ValueError "insufficient_funds")). reflexivity.
Defined.

(** ** Rows are only ever added *)

Lemma commits_has_user now c s s' u : commits now s c s' → has_user u s → has_user u s'.
Proof.
  intros Hc Hu.
  destruct Hc as [c|v n|v n a ch ? ?|f t a fn tn ? ?|v ch a row ? ? ? ? ? Hv]; [done|..].
  - apply has_user_upsert. by right.
  - apply (has_user_credit now a v u (upsert_user now v n s)), has_user_upsert. by right.
  - apply (has_user_credit now a t u
             (debit_balance now a f (upsert_user now t tn (upsert_user now f fn s)))),
      has_user_debit, has_user_upsert; right. apply has_user_upsert. by right.
  - by apply (has_user_debit now a v u (set_refunded (p_id row) s)).
Qed.

Lemma same_payment_refl (l : list payment_row) : Forall2 same_payment l l.
Proof. apply Forall_Forall2_diag, Forall_forall. intros p _. split; auto. Qed.

Lemma same_payment_set_refunded id s :
  Forall2 same_payment (payments s) (payments (set_refunded id s)).
Proof.
  unfold set_refunded. simpl. apply Forall2_fmap_r, Forall_Forall2_diag, Forall_forall.
  intros p _. unfold compose. case_bool_decide; split; simpl; auto.
Qed.

(** No call deletes or rewrites history.  The ledger and the transfers
    after a call start with the ledger and the transfers before it; the
    payments before it are all still there, in place, unchanged except
    that [refunded] may have been set to 1; and no account disappears. *)
Theorem history_is_append_only now c s :
  transactions s `prefix_of` transactions (perform now c s)
  ∧ transfers s `prefix_of` transfers (perform now c s)
  ∧ (∃ kept new, payments (perform now c s) = kept ++ new
                 ∧ Forall2 same_payment (payments s) kept)
  ∧ (∀ u, has_user u s → has_user u (perform now c s)).
Proof.
  pose proof (perform_commits now c s) as Hc.
  split; [|split; [|split]]; [..|intros u; by apply (commits_has_user now c)].
  - destruct Hc; try done; simpl; by apply prefix_app_r.
  - destruct Hc; try done; simpl; by apply prefix_app_r.
  - destruct Hc as [c|v n|v n a ch ? ?|f t a fn tn ? ?|v ch a row ? ? ? ? ? Hv].
    + exists (payments s), []. rewrite app_nil_r. split; [done|apply same_payment_refl].
    + exists (payments s), []. rewrite app_nil_r. split; [done|apply same_payment_refl].
    + eexists (payments s), [_]. split; [reflexivity|apply same_payment_refl].
    + exists (payments s), []. rewrite app_nil_r. split; [done|apply same_payment_refl].
    + exists (payments (set_refunded (p_id row) s)), []. rewrite app_nil_r.
      split; [done|apply same_payment_set_refunded].
Qed.

(** ** Foreign keys *)

Lemma purchase_committed_has_user now u n a ch s :
  has_user u (purchase_committed now u n a ch s).
Proof.
  apply (has_user_credit now a u u (upsert_user now u n s)), has_user_upsert. by left.
Qed.

Lemma transfer_committed_has_user now f t a fn tn s :
  has_user f (transfer_committed now f t a fn tn s)
  ∧ has_user t (transfer_committed now f t a fn tn s).
Proof.
  split;
    apply (has_user_credit now a t _
             (debit_balance now a f (upsert_user now t tn (upsert_user now f fn s)))),
      has_user_debit; rewrite !has_user_upsert; auto.
Qed.

Lemma commits_references_resolve now c s s' :
  commits now s c s' → references_resolve s → references_resolve s'.
Proof.
  intros Hc (Hp & Ht & He).
  assert (∀ u, has_user u s → has_user u s') as Hkeep
    by (intros u; by apply (commits_has_user now c)).
  destruct Hc as [c|v n|v n a ch ? ?|f t a fn tn ? ?|v ch a row ? ? ? ? ? Hv].
  - done.
  - split; [|split].
    + intros p Hin. apply Hkeep, Hp, Hin.
    + intros t Hin. destruct (Ht t Hin). auto.
    + intros e Hin. destruct (He e Hin) as [? Hr]. split; [auto|]. intros r ?. by apply Hkeep, Hr.
  - pose proof (purchase_committed_has_user now v n a ch s) as Hnew.
    split; [|split].
    + intros p Hin. simpl in Hin. apply elem_of_app in Hin as [Hin|Hin]; [by apply Hkeep, Hp|].
      apply list_elem_of_singleton in Hin. by subst.
    + intros t Hin. destruct (Ht t Hin). auto.
    + intros e Hin. simpl in Hin. apply elem_of_app in Hin as [Hin|Hin].
      * destruct (He e Hin) as [? Hr]. split; [auto|]. intros r ?. by apply Hkeep, Hr.
      * apply list_elem_of_singleton in Hin. subst. by split.
  - destruct (transfer_committed_has_user now f t a fn tn s) as [Hf Hto].
    split; [|split].
    + intros p Hin. apply Hkeep, Hp, Hin.
    + intros x Hin. simpl in Hin. apply elem_of_app in Hin as [Hin|Hin].
      * destruct (Ht x Hin). auto.
      * apply list_elem_of_singleton in Hin. by subst.
    + intros e Hin. simpl in Hin. apply elem_of_app in Hin as [Hin|Hin].
      * destruct (He e Hin) as [? Hr]. split; [auto|]. intros r ?. by apply Hkeep, Hr.
      * apply elem_of_cons in Hin as [->|Hin]; [|apply list_elem_of_singleton in Hin; subst];
          (split; [done|]; by intros r [= <-]).
  - split; [|split].
    + intros p Hin. change (payments _) with (payments (set_refunded (p_id row) s)) in Hin.
      unfold set_refunded in Hin. simpl in Hin.
      apply list_elem_of_fmap in Hin as (q & -> & Hq).
      pose proof (Hkeep _ (Hp q Hq)). by case_bool_decide.
    + intros t Hin. destruct (Ht t Hin). auto.
    + intros e Hin. simpl in Hin. apply elem_of_app in Hin as [Hin|Hin].
      * destruct (He e Hin) as [? Hr]. split; [auto|]. intros r ?. by apply Hkeep, Hr.
      * apply list_elem_of_singleton in Hin. subst. split; [by apply Hkeep|done].
Qed.

(** In every reachable store the references are sound: the account of
    every payment, both accounts of every transfer, and the account and
    the counterparty of every ledger row exist.  No call breaks this, so
    no insert of a method is ever refused for a missing account. *)
Theorem reachable_references_resolve s :
  reachable s →
  references_resolve s
  ∧ (∀ now c, references_resolve (perform now c s))
  ∧ (∀ now u n a ch, (add_purchase now u n a ch s).1 ≠ Raise fk_failed)
  ∧ (∀ now f t a fn tn, (transfer now f t a fn tn s).1 ≠ Raise fk_failed)
  ∧ (∀ now u ch a, (mark_refund now u ch a s).1 ≠ Raise fk_failed).
Proof.
  intros Hs.
  assert (references_resolve s) as Hres.
  { revert s Hs. apply reachable_ind_commits.
    - split; [|split]; intros ? Hin; by apply elem_of_nil in Hin.
    - intros now c s s' Hs Hc. by eapply commits_references_resolve. }
  split; [done|]. split; [|split; [|split]].
  - intros now c. eapply commits_references_resolve; [apply perform_commits|done].
  - intros now u n a ch. rewrite add_purchase_cases.
    destruct (select_payment_by_charge ch s); [done|]. by case_bool_decide.
  - intros now f t a fn tn. rewrite transfer_cases. by repeat case_bool_decide.
  - intros now u ch a. rewrite mark_refund_cases.
    destruct (select_payment_of_user ch u s) as [row|] eqn:E; [|done].
    repeat (case_bool_decide; [done|]).
    rewrite bool_decide_eq_false_2; [done|].
    apply head_filter_Some in E as [Hin [_ <-]].
    destruct Hres as (Hp & _). destruct (Hp row Hin). congruence.
Qed.

Lemma reachable_references_resolve_witness :
  has_user 8 (run bob_history empty_db).
Proof.
  destruct (reachable_references_resolve (run bob_history empty_db)) as [(_ & Ht & _) _].
  - by exists bob_history.
  - apply (Ht (TransferRow 1 7 8 20 101)). by_compute.
Defined.

(** ** Payments and their ledger rows *)

Lemma mirror_charge_in_ledger s row :
  purchases_mirror_payments s → row ∈ payments s →
  Some (p_charge_id row) ∈ tx_charge_id <$> transactions s.
Proof.
  intros Hm Hin.
  assert ((Some (p_charge_id row), p_user_id row, p_amount row)
          ∈ (λ p, (Some (p_charge_id p), p_user_id p, p_amount p)) <$> payments s) as H
    by (apply list_elem_of_fmap; by exists row).
  unfold purchases_mirror_payments in Hm. rewrite <- Hm in H.
  apply list_elem_of_fmap in H as (e & [= E _ _] & He).
  apply list_elem_of_filter in He as [_ He].
  apply list_elem_of_fmap. by exists e.
Qed.

Lemma commits_purchase_bundle now c s s' :
  commits now s c s' → purchase_bundle s → purchase_bundle s'.
Proof.
  intros Hc (Hm & Hnd & Hflag & Hkind).
  destruct Hc as [c|v n|v n a ch Hfresh ?|f t a fn tn ? ?|v ch a row Hrow ? ? ? Hno Hv];
    [done|done|..].
  - split; [|split; [|split]].
    + unfold purchases_mirror_payments, purchase_committed in *. simpl.
      rewrite filter_app, !fmap_app, Hm. by f_equal.
    + unfold purchase_committed. simpl. rewrite fmap_app. apply NoDup_app.
      split; [done|]. split; [|apply NoDup_singleton].
      intros x Hx Hin. apply list_elem_of_singleton in Hin. by subst.
    + intros p Hin. simpl in Hin. apply elem_of_app in Hin as [Hin|Hin]; [auto|].
      apply list_elem_of_singleton in Hin. by subst.
    + intros e Hin. simpl in Hin. apply elem_of_app in Hin as [Hin|Hin]; [auto|].
      apply list_elem_of_singleton in Hin. by subst.
  - split; [|split; [|split]]; [|done|done|].
    + unfold purchases_mirror_payments, transfer_committed in *. simpl.
      rewrite filter_app, fmap_app, Hm.
      rewrite filter_cons_False by done. rewrite filter_cons_False by done.
      by rewrite filter_nil, app_nil_r.
    + intros e Hin. simpl in Hin. apply elem_of_app in Hin as [Hin|Hin]; [auto|].
      apply elem_of_cons in Hin as [->|Hin]; [done|].
      apply list_elem_of_singleton in Hin. by subst.
  - destruct Hno. apply head_filter_Some in Hrow as [Hin [<- _]].
    by apply mirror_charge_in_ledger.
Qed.

Lemma reachable_purchase_bundle s : reachable s → purchase_bundle s.
Proof.
  revert s. apply reachable_ind_commits.
  - split; [done|]. split; [constructor|].
    split; intros ? Hin; by apply elem_of_nil in Hin.
  - intros now c s s' Hs Hc. by eapply commits_purchase_bundle.
Qed.

(** In a reachable store the charge ids of the payments are pairwise
    distinct, and the purchase rows of the ledger are, in order, the
    payments: same charge id, same account, same amount.  So each charge
    id was credited exactly once. *)
Theorem payments_match_purchase_rows s :
  reachable s →
  NoDup (p_charge_id <$> payments s)
  ∧ (λ e, (tx_charge_id e, tx_user_id e, tx_amount e))
      <$> filter (λ e, tx_kind e = purchase) (transactions s)
    = (λ p, (Some (p_charge_id p), p_user_id p, p_amount p)) <$> payments s.
Proof. intros Hs. apply reachable_purchase_bundle in Hs as (? & ? & _). done. Qed.

Lemma payments_match_purchase_rows_witness :
  length (filter (λ e, tx_kind e = purchase) (transactions (run bob_history empty_db)))
  = length (payments (run bob_history empty_db)).
Proof.
  destruct (payments_match_purchase_rows (run bob_history empty_db)) as [_ Hm];
    [by exists bob_history|].
  apply (f_equal length) in Hm. by rewrite !length_fmap in Hm.
Defined.

(** In a reachable store no payment is marked refunded and the ledger has
    no refund row: the refund path of [mark_refund] has never run to its
    end. *)
Theorem nothing_is_ever_refunded s :
  reachable s →
  (∀ p, p ∈ payments s → p_refunded p = 0)
  ∧ (∀ e, e ∈ transactions s → tx_kind e ≠ refund).
Proof. intros Hs. apply reachable_purchase_bundle in Hs as (_ & _ & ? & ?). done. Qed.

Lemma nothing_is_ever_refunded_witness :
  Forall (λ p, p_refunded p = 0) (payments (run bob_history empty_db)).
Proof.
  apply Forall_forall.
  apply (nothing_is_ever_refunded (run bob_history empty_db)). by exists bob_history.
Defined.

(** ** Conservation *)

Lemma sum_balances_insert (m : gmap Z user_row) u x :
  map_fold (λ _ r acc, balance r + acc) 0 (<[u:=x]> m)
  = map_fold (λ _ r acc, balance r + acc) 0 m
    - (if m !! u is Some r then balance r else 0) + balance x.
Proof.
  destruct (m !! u) as [r|] eqn:E.
  - rewrite <- insert_delete_eq.
    rewrite map_fold_insert_L; [|intros; lia|apply lookup_delete_eq].
    rewrite (map_fold_delete_L _ _ u r m); [lia|intros; lia|done].
  - rewrite map_fold_insert_L; [lia|intros; lia|done].
Qed.

Lemma alter_as_insert (m : gmap Z user_row) f u r :
  m !! u = Some r → alter f u m = <[u:=f r]> m.
Proof.
  intros E. apply map_eq. intros v. rewrite lookup_alter, lookup_insert.
  case_decide; [subst; by rewrite E|done].
Qed.

Lemma total_balance_upsert now u n s : total_balance (upsert_user now u n s) = total_balance s.
Proof.
  unfold total_balance, upsert_user. simpl. rewrite sum_balances_insert.
  destruct (users s !! u); simpl; lia.
Qed.

Lemma total_balance_credit now a u s :
  has_user u s → total_balance (credit_balance now a u s) = total_balance s + a.
Proof.
  intros [r E]. unfold total_balance, credit_balance. simpl.
  rewrite (alter_as_insert _ _ _ r E), sum_balances_insert, E. simpl. lia.
Qed.

Lemma total_balance_debit now a u s :
  has_user u s → total_balance (debit_balance now a u s) = total_balance s - a.
Proof.
  intros [r E]. unfold total_balance, debit_balance. simpl.
  rewrite (alter_as_insert _ _ _ r E), sum_balances_insert, E. simpl. lia.
Qed.

Lemma outstanding_app l1 l2 : outstanding (l1 ++ l2) = outstanding l1 + outstanding l2.
Proof. unfold outstanding. rewrite fmap_app. induction (_ <$> l1); simpl; lia. Qed.

Lemma set_refunded_ids id s : p_id <$> payments (set_refunded id s) = p_id <$> payments s.
Proof.
  unfold set_refunded. simpl. rewrite <- list_fmap_compose.
  apply list_fmap_ext. intros i p _. simpl. by case_bool_decide.
Qed.

Lemma outstanding_set_refunded row s :
  NoDup (p_id <$> payments s) → row ∈ payments s → p_refunded row = 0 →
  outstanding (payments (set_refunded (p_id row) s)) = outstanding (payments s) - p_amount row.
Proof.
  unfold set_refunded. simpl. generalize (payments s). clear s.
  intros l Hnd Hin Hflag. induction l as [|p l IH]; [by apply elem_of_nil in Hin|].
  rewrite fmap_cons in Hnd. apply NoDup_cons in Hnd as [Hp Hnd].
  rewrite fmap_cons. change (p :: l) with ([p] ++ l).
  change (?x :: (?f <$> l)) with ([x] ++ (f <$> l)). rewrite !outstanding_app.
  apply elem_of_cons in Hin as [<-|Hin].
  - rewrite bool_decide_eq_true_2 by done.
    assert (∀ k : list payment_row, p_id row ∉ p_id <$> k →
            (λ q, if bool_decide (p_id q = p_id row)
                  then PaymentRow (p_id q) (p_user_id q) (p_amount q) (p_currency q)
                         (p_charge_id q) 1 (p_created_at q)
                  else q) <$> k = k) as Hsame.
    { intros k Hk. induction k as [|q k IHk]; [done|]. rewrite fmap_cons.
      rewrite fmap_cons in Hk. apply not_elem_of_cons in Hk as [? ?].
      rewrite bool_decide_eq_false_2 by done. f_equal. by apply IHk. }
    rewrite Hsame by done. unfold outstanding. simpl.
    rewrite bool_decide_eq_true_2 by done. lia.
  - assert (p_id p ≠ p_id row).
    { intros E. apply Hp. rewrite E. apply list_elem_of_fmap. by exists row. }
    rewrite bool_decide_eq_false_2 by done. rewrite IH by done. lia.
Qed.

Lemma commits_conserves now c s s' :
  commits now s c s' →
  NoDup (p_id <$> payments s) → total_balance s = outstanding (payments s) →
  NoDup (p_id <$> payments s') ∧ total_balance s' = outstanding (payments s').
Proof.
  intros Hc Hnd Hs.
  destruct Hc as [c|v n|v n a ch ? ?|f t a fn tn ? ?|v ch a row Hrow Hflag ? ? ? Hv].
  - done.
  - split; [done|]. by rewrite total_balance_upsert.
  - split.
    + unfold purchase_committed. simpl. rewrite fmap_app. by apply NoDup_snoc_next_id.
    + unfold purchase_committed. simpl payments. rewrite outstanding_app.
      change (total_balance _)
        with (total_balance (credit_balance now a v (upsert_user now v n s))).
      rewrite total_balance_credit by (apply has_user_upsert; auto).
      rewrite total_balance_upsert, Hs. unfold outstanding. simpl. lia.
  - split; [done|].
    change (total_balance _)
      with (total_balance (credit_balance now a t (debit_balance now a f
              (upsert_user now t tn (upsert_user now f fn s))))).
    rewrite total_balance_credit
      by (apply has_user_debit; apply has_user_upsert; auto).
    rewrite total_balance_debit
      by (apply has_user_upsert; right; apply has_user_upsert; auto).
    rewrite !total_balance_upsert. simpl payments. lia.
  - apply head_filter_Some in Hrow as [Hin _].
    change (payments (refund_committed now v ch a row s))
      with (payments (set_refunded (p_id row) s)).
    split; [by rewrite set_refunded_ids|].
    rewrite outstanding_set_refunded by done.
    change (total_balance _)
      with (total_balance (debit_balance now a v (set_refunded (p_id row) s))).
    rewrite total_balance_debit by done.
    change (total_balance (set_refunded (p_id row) s)) with (total_balance s). lia.
Qed.

(** Stars are neither created nor lost inside the store: after any
    history the balances of all accounts add up to the amounts of the
    payments that are not refunded, and every call keeps that equation in
    any store with distinct payment ids where it holds (a transfer moves
    stars, a purchase adds its amount to both sides, a refund takes its
    amount from both). *)
Theorem stars_are_conserved :
  (∀ h, total_balance (run h empty_db) = outstanding (payments (run h empty_db)))
  ∧ (∀ now c s,
       NoDup (p_id <$> payments s) → total_balance s = outstanding (payments s) →
       total_balance (perform now c s) = outstanding (payments (perform now c s))).
Proof.
  split.
  - intros h.
    assert (reachable (run h empty_db)) as Hr by (by exists h).
    revert Hr. generalize (run h empty_db). clear h. intros s Hs.
    enough (NoDup (p_id <$> payments s) ∧ total_balance s = outstanding (payments s))
      as [_ ?] by done.
    revert s Hs. apply reachable_ind_commits.
    + split; [constructor|done].
    + intros now c s s' [? ?] Hc. by eapply commits_conserves.
  - intros now c s Hnd Hs. by eapply commits_conserves; [apply perform_commits|..].
Qed.

Lemma stars_are_conserved_witness :
  total_balance (run bob_history empty_db) = 80.
Proof.
  destruct stars_are_conserved as [Hrun _]. rewrite Hrun. reflexivity.
Defined.

(** ** Pages and counts *)

Lemma select_transactions_length u limit offset s :
  Z.of_nat (length (select_transactions u limit offset s))
  = (let left := Z.max 0 (select_count u s - Z.max 0 offset) in
     if bool_decide (limit < 0) then left else Z.min limit left).
Proof.
  unfold select_transactions, select_count, limit_offset, order_by.
  rewrite length_fmap. cbv zeta.
  pose proof (Permutation_length
                (merge_sort_Permutation tx_newest_first
                   (filter (λ e, tx_user_id e = u) (transactions s)))) as Hlen.
  case_bool_decide; rewrite ?length_take, length_drop, Hlen; lia.
Qed.

(** The number of rows [get_transactions] returns: what is left of the
    account's [count_transactions] rows after the offset, cut to the
    limit.  A negative limit lifts the bound, a negative offset counts as
    0, and an offset at or past the count gives the empty page. *)
Theorem page_length u limit offset s :
  ∃ page total,
    get_transactions u limit offset s = (Return page, s)
    ∧ count_transactions u s = (Return total, s)
    ∧ Z.of_nat (length page)
      = (let left := Z.max 0 (total - Z.max 0 offset) in
         if bool_decide (limit < 0) then left else Z.min limit left).
Proof.
  exists (select_transactions u limit offset s), (select_count u s).
  split; [done|]. split; [done|]. apply select_transactions_length.
Qed.

(** ** Known charge ids *)

(** [payment_exists] reads the store without changing it and answers
    [True] exactly for the charge ids of [payments]; these are exactly the
    charge ids for which [add_purchase] returns [False], and once it
    answers [True] for a charge id it does so after every later call. *)
Theorem payment_exists_agrees ch s :
  ∃ b, payment_exists ch s = (Return b, s)
       ∧ (b = true ↔ ch ∈ p_charge_id <$> payments s)
       ∧ (∀ now u n a, b = true ↔ add_purchase now u n a ch s = (Return false, s))
       ∧ (∀ now c, b = true → payment_exists ch (perform now c s)
                               = (Return true, perform now c s)).
Proof.
  exists (bool_decide (select_payment_by_charge ch s ≠ None)).
  split; [done|].
  assert (bool_decide (select_payment_by_charge ch s ≠ None) = true
          ↔ ch ∈ p_charge_id <$> payments s) as Hb.
  { rewrite bool_decide_eq_true. rewrite select_payment_by_charge_None.
    split; [|by auto]. intros Hnn. by destruct (decide (ch ∈ p_charge_id <$> payments s)). }
  split; [done|]. split.
  - intros now u n a. rewrite Hb, add_purchase_cases.
    destruct (select_payment_by_charge ch s) eqn:E.
    + split; [done|]. intros _.
      destruct (decide (ch ∈ p_charge_id <$> payments s)) as [|Hn]; [done|].
      apply select_payment_by_charge_None in Hn. congruence.
    + apply select_payment_by_charge_None in E. split; [done|].
      clear Hb. case_bool_decide; intros Heq; discriminate Heq.
  - intros now c Hin. apply Hb in Hin.
    assert (ch ∈ p_charge_id <$> payments (perform now c s)) as Hkept
      by (eapply commits_charge_kept; [apply perform_commits|done]).
    unfold payment_exists. run_sql. do 2 f_equal.
    apply bool_decide_eq_true. rewrite select_payment_by_charge_None. by auto.
Qed.

Lemma payment_exists_agrees_witness :
  payment_exists "chg1" (perform 101 (Transfer 7 8 20 None None) (run bob_paid empty_db))
  = (Return true, perform 101 (Transfer 7 8 20 None None) (run bob_paid empty_db)).
Proof.
  destruct (payment_exists_agrees "chg1" (run bob_paid empty_db)) as (b & _ & Hb & _ & Hlater).
  apply Hlater, Hb. by_compute.
Defined.

(** ** The refund candidate *)

Lemma select_refundable_Some u a s i :
  select_refundable u a s = Some i →
  ∃ p, p ∈ payments s ∧ i = payment_item_of p ∧ refundable u a p.
Proof.
  unfold select_refundable. intros E.
  apply fmap_Some in E as (p & Hp & ->).
  apply head_Some_elem_of in Hp.
  eapply elem_of_sublist in Hp; [|apply limit_offset_sublist].
  unfold order_by in Hp. rewrite merge_sort_Permutation in Hp.
  apply list_elem_of_filter in Hp as [? ?]. eauto.
Qed.

Lemma NoDup_fmap_eq {A B} (f : A → B) (l : list A) x y :
  NoDup (f <$> l) → x ∈ l → y ∈ l → f x = f y → x = y.
Proof.
  intros Hnd Hx Hy E. induction l as [|z l IH]; [by apply elem_of_nil in Hx|].
  rewrite fmap_cons in Hnd. apply NoDup_cons in Hnd as [Hz Hnd].
  apply elem_of_cons in Hx as [->|Hx]; apply elem_of_cons in Hy as [->|Hy]; auto.
  - destruct Hz. rewrite E. apply list_elem_of_fmap. by exists y.
  - destruct Hz. rewrite <- E. apply list_elem_of_fmap. by exists x.
Qed.

Lemma candidate_refund_outcome now u a s i :
  reachable s →
  select_refundable u a s = Some i →
  mark_refund now u (pi_charge_id i) a s
  = if bool_decide (select_balance u s < a) then (Return false, s)
    else (Raise (IntegrityError "UNIQUE constraint failed: transactions.charge_id"), s).
Proof.
  intros Hs E. apply reachable_purchase_bundle in Hs as (Hm & Hnd & _ & _).
  apply select_refundable_Some in E as (p & Hp & -> & Hu & Ha & Hflag). simpl.
  rewrite mark_refund_cases.
  destruct (select_payment_of_user (p_charge_id p) u s) as [row|] eqn:E.
  - apply head_filter_Some in E as [Hrow [Hch _]].
    assert (row = p) as -> by (by eapply (NoDup_fmap_eq p_charge_id)).
    rewrite (bool_decide_eq_false_2 (p_refunded p ≠ 0)) by lia.
    rewrite (bool_decide_eq_false_2 (p_amount p ≠ a)) by lia.
    case_bool_decide; [done|].
    rewrite bool_decide_eq_true_2; [done|]. by apply mirror_charge_in_ledger.
  - exfalso. eapply head_filter_None in E; [|exact Hp]. by apply E.
Qed.

(** What the refund button leads to.  In a reachable store, for the
    payment [get_payment_for_amount] offers as refundable, [mark_refund]
    with that payment's charge id and amount returns [False] when the
    balance is below the amount and otherwise raises the integrity error
    of the ledger's unique charge-id index; the store stays as it was. *)
Theorem refund_candidate_is_refused now u a s i :
  reachable s →
  get_payment_for_amount u a s = (Return (Some i), s) →
  mark_refund now u (pi_charge_id i) a s
  = if bool_decide (select_balance u s < a) then (Return false, s)
    else (Raise (IntegrityError "UNIQUE constraint failed: transactions.charge_id"), s).
Proof. intros Hs [= E]. by apply candidate_refund_outcome. Qed.

Lemma refund_candidate_is_refused_witness :
  mark_refund 102 7 "chg2" 30 (run bob_history empty_db)
  = (Raise (IntegrityError "UNIQUE constraint failed: transactions.charge_id"),
     run bob_history empty_db).
Proof.
  apply (refund_candidate_is_refused 102 7 30 (run bob_history empty_db)
           (PaymentItem 2 "chg2" 0 30)).
  - by exists bob_history.
  - reflexivity.
Defined.

(** * The bot's handlers *)

Ltac run_handler :=
  cbv [hbind hret on_db send alert except_ValueError amount_of store sent].

Lemma pretty_N_go_no_colon x s : no_colon s → no_colon (pretty_N_go x s).
Proof.
  revert s. induction (N.lt_wf_0 x) as [x _ IH]; intros s Hs.
  assert (x = 0 ∨ 0 < x)%N as [->|?] by lia; [done|].
  rewrite pretty_N_go_step by done. apply IH; [by apply N.div_lt|].
  split; [|done]. unfold pretty_N_char. by repeat case_match.
Qed.

Lemma pretty_Z_no_colon (z : Z) : no_colon (pretty z).
Proof.
  assert (∀ n : N, no_colon (pretty n)) as HN.
  { intros n. unfold pretty, pretty_N. case_decide; [by split|].
    by apply pretty_N_go_no_colon. }
  destruct z as [|q|q]; [by split|apply (HN (Npos q))|].
  split; [done|apply (HN (Npos q))].
Qed.

Lemma split_on_no_colon a : no_colon a → split_on colon a = [a].
Proof.
  induction a as [|c a IH]; [done|]. intros [Hc Ha]. cbn [split_on].
  destruct (bool_decide_reflect (c = colon)); [done|]. by rewrite IH.
Qed.

Lemma split_on_app a rest :
  no_colon a → split_on colon (a +:+ String colon rest) = a :: split_on colon rest.
Proof.
  induction a as [|c a IH]; intros Ha.
  - change ("" +:+ String colon rest) with (String colon rest). cbn [split_on].
    by destruct (bool_decide_reflect (colon = colon)).
  - destruct Ha as [Hc Ha].
    change (String c a +:+ String colon rest) with (String c (a +:+ String colon rest)).
    cbn [split_on].
    destruct (bool_decide_reflect (c = colon)); [done|]. by rewrite (IH Ha).
Qed.

Lemma world_eta w : World (store w) (sent w) = w.
Proof. by destruct w. Qed.

(** ** The history page *)

Lemma refundable_amounts_eq u packs acc w :
  refundable_amounts u packs acc w
  = (Return (foldl (λ acc amount,
                      if bool_decide (select_refundable u amount (store w) ≠ None
                                      ∧ amount ∉ acc)
                      then acc ++ [amount] else acc) acc packs), w).
Proof.
  destruct w as [s l]. revert acc. induction packs as [|a packs IH]; intros acc; [done|].
  simpl. run_handler. apply IH.
Qed.

Lemma refundable_buy_packs u s :
  foldl (λ acc amount,
           if bool_decide (select_refundable u amount s ≠ None ∧ amount ∉ acc)
           then acc ++ [amount] else acc) [] BUY_PACKS
  = filter (λ a, is_Some (select_refundable u a s)) BUY_PACKS.
Proof.
  unfold BUY_PACKS. cbn [foldl]. rewrite !filter_cons, filter_nil.
  destruct (select_refundable u 50 s), (select_refundable u 100 s),
    (select_refundable u 250 s), (select_refundable u 500 s); reflexivity.
Qed.

Lemma select_refundable_is_Some u a s :
  is_Some (select_refundable u a s) ↔ Exists (refundable u a) (payments s).
Proof.
  pose proof (select_refundable_spec u a s) as Hspec. rewrite Exists_exists.
  destruct (select_refundable u a s) as [i|].
  - destruct Hspec as (p & Hp & _ & Hr & _). split; [by eauto|]. intros _. by eexists.
  - split; [by intros [? [=]]|]. intros (q & Hq & Hr). by destruct (Hspec q Hq).
Qed.

Lemma history_keyboard_buttons page has_prev has_next amounts :
  history_keyboard page has_prev has_next (Some amounts)
  = Adjusted
      ((if has_prev then [Button "←" ("menu:history:" +:+ pretty (page - 1))] else [])
       ++ [Button ("Стр. " +:+ pretty (page + 1)) "noop"]
       ++ (if has_next then [Button "→" ("menu:history:" +:+ pretty (page + 1))] else [])
       ++ ((λ amount, Button ("↩️ Вернуть " +:+ pretty amount +:+ "⭐")
                             ("refund:" +:+ pretty amount)) <$> amounts)
       ++ [back_button])
      [3; 1; 1]%nat.
Proof. by destruct amounts. Qed.

Section handler_properties.
Variable py_int : string → outcome Z.
Variable datetime_text : Z → string.

Lemma next_page_nonempty u page s :
  0 ≤ page →
  page * PAGE_SIZE + PAGE_SIZE < select_count u s
  ↔ select_transactions u PAGE_SIZE (PAGE_SIZE * (page + 1)) s ≠ [].
Proof.
  intros Hp. pose proof (select_transactions_length u PAGE_SIZE (PAGE_SIZE * (page + 1)) s) as Hlen.
  cbv zeta in Hlen. unfold PAGE_SIZE in *. rewrite bool_decide_eq_false_2 in Hlen by lia.
  destruct (select_transactions u 20 (20 * (page + 1)) s) as [|i l]; simpl in Hlen.
  - split; [lia|done].
  - split; [done|lia].
Qed.

(** What [send_history] shows.  For a page number that is not negative
    it leaves the store as it was and sends one message (none without a
    message to edit).  The buttons of its keyboard are, in this order:
    "←" to the page before, exactly on a later page than the first; the
    number of the page; "→" to the page after, exactly when that page
    has rows; one refund button for each of the pack amounts, in the
    order of [BUY_PACKS], for which the account has a payment that is
    not refunded, and for no other amount; the way back.  The text is the
    empty-history text exactly when the page has no rows. *)
Theorem send_history_shows_the_page u has_message edit_ok page w :
  0 ≤ page →
  ∃ text,
    send_history datetime_text u has_message edit_ok page w
    = (Return tt,
       World (store w)
         (sent w ++
          if has_message then
            let kb :=
              Adjusted
                ((if bool_decide (0 < page)
                  then [Button "←" ("menu:history:" +:+ pretty (page - 1))] else [])
                 ++ [Button ("Стр. " +:+ pretty (page + 1)) "noop"]
                 ++ (if bool_decide
                          (select_transactions u PAGE_SIZE (PAGE_SIZE * (page + 1))
                             (store w) ≠ [])
                     then [Button "→" ("menu:history:" +:+ pretty (page + 1))] else [])
                 ++ ((λ amount, Button ("↩️ Вернуть " +:+ pretty amount +:+ "⭐")
                                       ("refund:" +:+ pretty amount))
                       <$> filter (λ amount, Exists (refundable u amount)
                                               (payments (store w))) BUY_PACKS)
                 ++ [Button "⬅️ Назад" "menu:root"])
                [3; 1; 1]%nat in
            [if edit_ok then edit_text text kb else message_answer text (Some kb)]
          else []))
    ∧ (text = history_empty_text
       ↔ select_transactions u PAGE_SIZE (PAGE_SIZE * page) (store w) = []).
Proof.
  intros Hp. destruct w as [s l]. eexists. split.
  - unfold send_history. run_handler.
    cbv [get_transactions count_transactions with_connection query working committed].
    rewrite refundable_amounts_eq, refundable_buy_packs. cbn [store sent].
    rewrite history_keyboard_buttons.
    rewrite (list_filter_iff _ (λ amount, Exists (refundable u amount) (payments s)))
      by (intros a; apply select_refundable_is_Some).
    rewrite (bool_decide_ext (page > 0) (0 < page)) by lia.
    rewrite (bool_decide_ext _ _ (next_page_nonempty u page s Hp)).
    replace (page * PAGE_SIZE) with (PAGE_SIZE * page) by lia.
    destruct has_message; [|by rewrite app_nil_r].
    destruct edit_ok; reflexivity.
  - cbv beta. case_bool_decide as Hitems; [done|].
    split; [|done]. intros Heq. discriminate Heq.
Qed.

(** ** Turning pages *)

Lemma history_page_decodes n :
  0 ≤ n → py_int (pretty n) = Return n →
  history_page py_int ("menu:history:" +:+ pretty n) = Return n.
Proof.
  intros Hn Hint. unfold history_page.
  change ("menu:history:" +:+ pretty n)
    with ("menu" +:+ String colon ("history" +:+ String colon (pretty n))).
  rewrite split_on_app by (by repeat split).
  rewrite split_on_app by (by repeat split).
  rewrite split_on_no_colon by apply pretty_Z_no_colon.
  simpl. rewrite Hint. f_equal. lia.
Qed.

(** The page [menu_history] shows is never negative, whatever the
    callback data; and the arrows of the history keyboard lead where
    they point: where [int] reads the decimal text of a page number
    back, the ← button of page [p > 0] carries data that [menu_history]
    decodes to [p - 1], and the → button data it decodes to [p + 1]. *)
Theorem history_arrows_turn_the_page page has_prev has_next amounts :
  (∀ data n, history_page py_int data = Return n → 0 ≤ n)
  ∧ (0 < page → py_int (pretty (page - 1)) = Return (page - 1) →
     ∃ b, b ∈ buttons_of (history_keyboard page true has_next amounts)
          ∧ b_text b = "←"
          ∧ history_page py_int (b_callback_data b) = Return (page - 1))
  ∧ (0 ≤ page → py_int (pretty (page + 1)) = Return (page + 1) →
     ∃ b, b ∈ buttons_of (history_keyboard page has_prev true amounts)
          ∧ b_text b = "→"
          ∧ history_page py_int (b_callback_data b) = Return (page + 1)).
Proof.
  split; [|split].
  - intros data n. unfold history_page.
    destruct (bool_decide _); [|intros [= <-]; lia].
    destruct (py_int _) as [m|[msg|msg]]; intros [= <-]; lia.
  - intros Hp Hint. eexists. split; [left|]. split; [done|].
    apply history_page_decodes; [lia|done].
  - intros Hp Hint. eexists. split.
    + simpl. apply elem_of_app. right. right. left.
    + split; [done|]. apply history_page_decodes; [lia|done].
Qed.
End handler_properties.

Lemma send_history_shows_the_page_witness :
  ∃ text, (send_history pretty 7 true true 0 (World (run bob_history empty_db) [])).2
          = World (run bob_history empty_db)
              [edit_text text
                 (Adjusted [Button "Стр. 1" "noop";
                            Button "↩️ Вернуть 50⭐" "refund:50";
                            Button "⬅️ Назад" "menu:root"] [3; 1; 1]%nat)].
Proof.
  destruct (send_history_shows_the_page pretty 7 true true 0
              (World (run bob_history empty_db) [])) as (text & E & _); [done|].
  exists text. rewrite E. reflexivity.
Defined.

Lemma history_arrows_turn_the_page_witness :
  ∃ b, b ∈ buttons_of (history_keyboard 3 true true None)
       ∧ history_page read_decimal (b_callback_data b) = Return 4.
Proof.
  destruct (history_arrows_turn_the_page read_decimal 3 true true None) as (_ & _ & Hnext).
  destruct Hnext as (b & Hb & _ & Hpage); [done|reflexivity|].
  by exists b.
Defined.

(** ** Gifts *)

Ltac run_methods :=
  cbv [get_balance get_transactions count_transactions get_payment_for_amount
       with_connection query working committed].

Section gift_properties.
Variable py_int : string → outcome Z.

(** Whatever the callback data, the gift handler changes the store in
    one way only: by a committed transfer of a positive amount, within
    the sender's balance, to an account other than the sender's.  A gift
    to oneself, which [transfer] would accept, is never made. *)
Theorem gift_reaches_only_others now data sender name has_message w :
  store (gift_amount py_int now data sender name has_message w).2 = store w
  ∨ ∃ recipient amount,
      recipient ≠ sender
      ∧ 0 < amount ≤ select_balance sender (store w)
      ∧ (gift_amount py_int now data sender name has_message w).1 = Return tt
      ∧ store (gift_amount py_int now data sender name has_message w).2
        = transfer_committed now sender recipient amount name None (store w).
Proof.
  destruct w as [s l]. unfold gift_amount. run_handler.
  case_bool_decide; [by left|].
  destruct (py_int (default "" (split_on colon data !! 1%nat))) as [recipient|e];
    [|by left].
  destruct (py_int (default "" (split_on colon data !! 2%nat))) as [amount|e];
    [|by left].
  case_bool_decide; [by left|].
  run_methods. case_bool_decide; [by left|].
  rewrite transfer_cases.
  case_bool_decide; [by left|]. case_bool_decide; [by left|].
  right. exists recipient, amount. split; [done|]. split; [lia|].
  destruct has_message; done.
Qed.

(** Pressing a button of the gift keyboard.  Where [int] reads the
    decimal texts of the recipient's id and of the pack amount back, a
    button of [gift_amount_keyboard] for another account, pressed by a
    sender whose balance covers the pack, transfers exactly the pack
    amount and reports the sender's new balance; with a balance below
    the pack it changes nothing and says so. *)
Theorem gift_button_transfers_the_pack now recipient amount sender name w :
  amount ∈ BUY_PACKS →
  recipient ≠ sender →
  py_int (pretty recipient) = Return recipient →
  py_int (pretty amount) = Return amount →
  let data := "gift:" +:+ pretty recipient +:+ ":" +:+ pretty amount in
  Button ("Отправить " +:+ pretty amount +:+ " ⭐") data
    ∈ buttons_of (gift_amount_keyboard recipient)
  ∧ gift_amount py_int now data sender name true w
    = if bool_decide (select_balance sender (store w) < amount) then
        (Return tt,
         World (store w)
           (sent w ++ [callback_answer None false;
                       callback_answer (Some "Недостаточно Stars на балансе бота.") true]))
      else
        (Return tt,
         World (transfer_committed now sender recipient amount name None (store w))
           (sent w ++ [callback_answer None false;
                       edit_text
                         ("Готово! Отправлено " +:+ pretty amount
                          +:+ "⭐ пользователю <code>" +:+ pretty recipient
                          +:+ "</code>." +:+ nl +:+ "Ваш баланс в боте: "
                          +:+ pretty (select_balance sender (store w) - amount) +:+ "⭐")
                         (main_menu false)])).
Proof.
  intros Hpack Hother Hrec Hamt data. split.
  - unfold gift_amount_keyboard, buttons_of. apply elem_of_app. left.
    apply list_elem_of_fmap. by exists amount.
  - assert (0 < amount) as Hpos.
    { unfold BUY_PACKS in Hpack.
      repeat (apply elem_of_cons in Hpack as [->|Hpack]; [lia|]).
      by apply elem_of_nil in Hpack. }
    destruct w as [s l]. unfold gift_amount, data. run_handler.
    change ("gift:" +:+ pretty recipient +:+ ":" +:+ pretty amount)
      with ("gift" +:+ String colon (pretty recipient +:+ String colon (pretty amount))).
    rewrite split_on_app by (by repeat split).
    rewrite split_on_app by apply pretty_Z_no_colon.
    rewrite split_on_no_colon by apply pretty_Z_no_colon.
    rewrite bool_decide_eq_false_2 by (intros Hlen; by apply Hlen).
    simpl lookup. simpl default. rewrite Hrec, Hamt.
    rewrite bool_decide_eq_false_2 by done.
    run_methods. case_bool_decide as Hbal.
    { by rewrite <- app_assoc. }
    rewrite transfer_cases.
    rewrite bool_decide_eq_false_2 by lia. rewrite bool_decide_eq_false_2 by done.
    rewrite transfer_committed_balance.
    rewrite decide_True by done. rewrite decide_False by done.
    rewrite <- app_assoc. by rewrite Z.add_0_r.
Qed.
End gift_properties.

Lemma gift_button_transfers_the_pack_witness :
  store (gift_amount read_decimal 101 "gift:8:50" 7 None true
           (World (run bob_paid empty_db) [])).2
  = transfer_committed 101 7 8 50 None None (run bob_paid empty_db).
Proof.
  destruct (gift_button_transfers_the_pack read_decimal 101 8 50 7 None
              (World (run bob_paid empty_db) [])) as [_ E];
    [by_compute|done|reflexivity|reflexivity|].
  change ("gift:" +:+ pretty 8 +:+ ":" +:+ pretty 50) with "gift:8:50" in E.
  rewrite E. reflexivity.
Defined.

(** ** Refunds through the bot *)

Section refund_properties.
Variable py_int : string → outcome Z.

(** The refund handler on a reachable store, for callback data whose
    amount [int] reads and for which a refundable payment exists, once
    Telegram has accepted the refund: it has asked Telegram to refund
    that payment, and then either reports that the refund could not be
    recorded (balance below the amount) or ends in the integrity error
    of [mark_refund].  Either way the store is as it was: the payment
    stays unmarked and the stars stay on the balance. *)
Theorem refund_button_records_nothing now data x amount i u has_message w :
  reachable (store w) →
  split_on colon data !! 1%nat = Some x →
  py_int x = Return amount →
  select_refundable u amount (store w) = Some i →
  refund_callback py_int now data u has_message (Some true) w
  = if bool_decide (select_balance u (store w) < amount) then
      (Return tt,
       World (store w)
         (sent w ++ [callback_answer None false;
                     refund_star_payment u (pi_charge_id i);
                     callback_answer (Some "Не удалось отметить возврат в базе.") true]))
    else
      (Raise (IntegrityError "UNIQUE constraint failed: transactions.charge_id"),
       World (store w)
         (sent w ++ [callback_answer None false;
                     refund_star_payment u (pi_charge_id i)])).
Proof.
  intros Hs Hx Hint Hcand. destruct w as [s l]. simpl in *.
  unfold refund_callback. run_handler. rewrite Hx, Hint.
  run_methods. rewrite Hcand.
  rewrite (candidate_refund_outcome now u amount s i Hs Hcand).
  case_bool_decide; simpl; by rewrite <- !app_assoc.
Qed.
End refund_properties.

Lemma refund_button_records_nothing_witness :
  refund_callback read_decimal 102 "refund:30" 7 true (Some true)
    (World (run same_second empty_db) [])
  = (Raise (IntegrityError "UNIQUE constraint failed: transactions.charge_id"),
     World (run same_second empty_db)
       [callback_answer None false; refund_star_payment 7 "a"]).
Proof.
  rewrite (refund_button_records_nothing read_decimal 102 "refund:30" "30" 30
             (PaymentItem 1 "a" 0 30) 7 true (World (run same_second empty_db) []));
    [reflexivity|by exists same_second|reflexivity|reflexivity|reflexivity].
Defined.

(** ** Payment notifications *)

(** A payment notification in the bot's currency, on a reachable store:
    the first delivery of a charge id credits the amount and replies with
    the balance after the credit; a delivery of a charge id already in
    [payments] replies that the payment is already processed and leaves
    the store as it was, and so does every later delivery of a credited
    one.  A notification in another currency is ignored. *)
Theorem payment_notice_is_credited_once now notice u name w :
  reachable (store w) →
  let amount := sp_total_amount notice in
  let charge := sp_telegram_payment_charge_id notice in
  let already := message_answer "Этот платёж уже обработан." None in
  (sp_currency notice ≠ CURRENCY → successful_payment now (Some notice) u name w = (Return tt, w))
  ∧ (sp_currency notice = CURRENCY →
     successful_payment now (Some notice) u name w
     = (if bool_decide (charge ∈ p_charge_id <$> payments (store w)) then
          (Return tt, World (store w) (sent w ++ [already]))
        else
          (Return tt,
           World (purchase_committed now u name amount charge (store w))
             (sent w ++ [message_answer
                           ("Покупка успешна! +" +:+ pretty amount
                            +:+ "⭐ зачислено на баланс." +:+ nl
                            +:+ "Ваш баланс в боте: "
                            +:+ pretty (select_balance u (store w) + amount) +:+ "⭐")
                           (Some (main_menu false))])))
     ∧ ∀ now' u' name',
         successful_payment now' (Some notice) u' name'
           (successful_payment now (Some notice) u name w).2
         = (Return tt,
            World (store (successful_payment now (Some notice) u name w).2)
              (sent (successful_payment now (Some notice) u name w).2 ++ [already]))).
Proof.
  intros Hs amount charge already. destruct w as [s l]. simpl in Hs.
  assert (∀ now u name s l, charge ∈ p_charge_id <$> payments s →
            successful_payment now (Some notice) u name (World s l)
            = (if bool_decide (sp_currency notice ≠ CURRENCY) then (Return tt, World s l)
               else (Return tt, World s (l ++ [already])))) as Hdup.
  { intros now0 u0 name0 s0 l0 Hin. unfold successful_payment. run_handler.
    case_bool_decide; [done|]. rewrite add_purchase_cases.
    destruct (select_payment_by_charge _ s0) eqn:E; [done|].
    apply select_payment_by_charge_None in E. done. }
  split.
  - intros Hcur. unfold successful_payment. by rewrite bool_decide_eq_true_2.
  - intros Hcur.
    assert (successful_payment now (Some notice) u name (World s l)
            = (if bool_decide (charge ∈ p_charge_id <$> payments s) then
                 (Return tt, World s (l ++ [already]))
               else
                 (Return tt,
                  World (purchase_committed now u name amount charge s)
                    (l ++ [message_answer
                             ("Покупка успешна! +" +:+ pretty amount
                              +:+ "⭐ зачислено на баланс." +:+ nl
                              +:+ "Ваш баланс в боте: "
                              +:+ pretty (select_balance u s + amount) +:+ "⭐")
                             (Some (main_menu false))]))) ) as E.
    { destruct (decide (charge ∈ p_charge_id <$> payments s)) as [Hin|Hin];
        [rewrite (bool_decide_eq_true_2 _ Hin)|rewrite (bool_decide_eq_false_2 _ Hin)].
      - rewrite Hdup by done. by rewrite bool_decide_eq_false_2 by (by intros ?).
      - unfold successful_payment. run_handler.
        rewrite bool_decide_eq_false_2 by (by intros ?).
        rewrite add_purchase_cases.
        apply select_payment_by_charge_None in Hin. fold charge. rewrite Hin.
        rewrite bool_decide_eq_false_2.
        2:{ intros Hl. apply reachable_ledger_charges_recorded in Hl; [|done].
            by apply select_payment_by_charge_None in Hin. }
        simpl. run_methods. rewrite purchase_committed_balance.
        by rewrite decide_True. }
    split; [exact E|]. intros now' u' name'. rewrite E.
    destruct (decide (charge ∈ p_charge_id <$> payments s)) as [Hin|Hin];
      [rewrite (bool_decide_eq_true_2 _ Hin)|rewrite (bool_decide_eq_false_2 _ Hin)];
      cbn [snd store sent].
    + rewrite Hdup by done. by rewrite bool_decide_eq_false_2 by (by intros ?).
    + rewrite Hdup.
      * by rewrite bool_decide_eq_false_2 by (by intros ?).
      * unfold purchase_committed. simpl. rewrite fmap_app. apply elem_of_app. right. left.
Qed.

Lemma payment_notice_is_credited_once_witness :
  store (successful_payment 101 (Some (PaymentNotice "XTR" 100 "chg9")) 7 None
           (World (run bob_paid empty_db) [])).2
  = purchase_committed 101 7 None 100 "chg9" (run bob_paid empty_db).
Proof.
  destruct (payment_notice_is_credited_once 101 (PaymentNotice "XTR" 100 "chg9") 7 None
              (World (run bob_paid empty_db) [])) as [_ Hxtr]; [by exists bob_paid|].
  destruct Hxtr as [E _]; [reflexivity|]. rewrite E. reflexivity.
Defined.

(** ** Invoices *)

Lemma buy_pack_positive amount : amount ∈ BUY_PACKS → 0 < amount.
Proof.
  unfold BUY_PACKS. intros Hpack.
  repeat (apply elem_of_cons in Hpack as [->|Hpack]; [lia|]).
  by apply elem_of_nil in Hpack.
Qed.

Lemma snoc_neq_self {A} (l : list A) x : l ++ [x] ≠ l.
Proof. intros E. apply (f_equal length) in E. rewrite length_app in E. simpl in E. lia. Qed.

Section checkout_properties.
Variable py_int : string → outcome Z.

(** [pre_checkout] approves a checkout only if its currency is the
    bot's, its payload reads buy:amount:user with the amount equal to
    the total charged and the user equal to the payer, and the amount is
    one of the packs, hence positive.  It never touches the store. *)
Theorem pre_checkout_approves_only_packs q w :
  store (pre_checkout py_int q w).2 = store w
  ∧ (sent (pre_checkout py_int q w).2 = sent w ++ [pre_checkout_answer true None] →
     cq_currency q = CURRENCY
     ∧ cq_total_amount q ∈ BUY_PACKS
     ∧ 0 < cq_total_amount q
     ∧ ∃ p1 p2,
         split_on colon (default "" (cq_invoice_payload q)) = ["buy"; p1; p2]
         ∧ py_int p1 = Return (cq_total_amount q)
         ∧ py_int p2 = Return (cq_from_user_id q)).
Proof.
  destruct w as [s l]. unfold pre_checkout. run_handler.
  assert (∀ t, l ++ [pre_checkout_answer false t] = l ++ [pre_checkout_answer true None]
               → False) as Hno by (intros t [=]%app_inv_head).
  case_bool_decide as Hcur; [split; [done|]; simpl; intros E; by destruct (Hno _ E)|].
  case_bool_decide as Hparts; [split; [done|]; simpl; intros E; by destruct (Hno _ E)|].
  destruct (split_on colon (default "" (cq_invoice_payload q))) as [|p0 [|p1 [|p2 [|]]]]
    eqn:Esplit; try (destruct Hparts; left; simpl; lia).
  simpl lookup in *. simpl default.
  destruct (py_int p1) as [amount|e] eqn:E1;
    [|split; [done|]; simpl; intros E; symmetry in E; by destruct (snoc_neq_self _ _ E)].
  destruct (py_int p2) as [user|e] eqn:E2;
    [|split; [done|]; simpl; intros E; symmetry in E; by destruct (snoc_neq_self _ _ E)].
  case_bool_decide as Hsame; [split; [done|]; simpl; intros E; by destruct (Hno _ E)|].
  case_bool_decide as Hpack; [split; [done|]; simpl; intros E; by destruct (Hno _ E)|].
  split; [done|]. intros _.
  assert (amount = cq_total_amount q ∧ user = cq_from_user_id q) as [-> ->].
  { split; [destruct (decide (amount = cq_total_amount q))
           |destruct (decide (user = cq_from_user_id q))]; try done;
      destruct Hsame; auto. }
  assert (cq_total_amount q ∈ BUY_PACKS) as Hin
    by (by destruct (decide (cq_total_amount q ∈ BUY_PACKS))).
  split; [by destruct (decide (cq_currency q = CURRENCY))|].
  split; [done|]. split; [by apply buy_pack_positive|].
  exists p1, p2. split; [|done]. f_equal.
  destruct (decide (p0 = "buy")) as [|Hne]; [done|].
  destruct Hparts. right. by intros [=].
Qed.

(** The invoice the bot issues passes the bot's own check.  Where [int]
    reads the decimal texts of the pack amount and of the user id back,
    the buy button of a pack makes [buy_stars] send an invoice whose
    payload [pre_checkout] approves when Telegram presents it with that
    amount, that payer and the bot's currency. *)
Theorem invoice_passes_pre_checkout amount user w w' :
  amount ∈ BUY_PACKS →
  py_int (pretty amount) = Return amount →
  py_int (pretty user) = Return user →
  let payload := "buy:" +:+ pretty amount +:+ ":" +:+ pretty user in
  Button ("+" +:+ pretty amount +:+ " ⭐") ("buy:" +:+ pretty amount)
    ∈ buttons_of buy_packs_keyboard
  ∧ buy_stars py_int ("buy:" +:+ pretty amount) user true w
    = (Return tt,
       World (store w)
         (sent w ++ [callback_answer None false;
                     send_invoice user ("Покупка " +:+ pretty amount +:+ "⭐")
                       "Оплата Stars внутри Telegram" payload "" CURRENCY
                       (pretty amount +:+ " Stars") amount "stars"]))
  ∧ pre_checkout py_int (CheckoutQuery CURRENCY (Some payload) amount user) w'
    = (Return tt, World (store w') (sent w' ++ [pre_checkout_answer true None])).
Proof.
  intros Hpack Hamt Huser payload. split; [|split].
  - unfold buy_packs_keyboard, buttons_of. apply elem_of_app. left.
    apply list_elem_of_fmap. by exists amount.
  - destruct w as [s l]. unfold buy_stars. run_handler.
    change ("buy:" +:+ pretty amount) with ("buy" +:+ String colon (pretty amount)).
    rewrite split_on_app by (by repeat split).
    rewrite split_on_no_colon by apply pretty_Z_no_colon.
    simpl lookup. cbv beta iota. rewrite Hamt.
    rewrite bool_decide_eq_false_2 by (by intros Hn).
    by rewrite <- app_assoc.
  - destruct w' as [s l]. unfold pre_checkout, payload. run_handler.
    cbn [cq_currency cq_invoice_payload cq_total_amount cq_from_user_id].
    change (default "" (Some ?x)) with x.
    rewrite bool_decide_eq_false_2 by (by intros Hn).
    change ("buy:" +:+ pretty amount +:+ ":" +:+ pretty user)
      with ("buy" +:+ String colon (pretty amount +:+ String colon (pretty user))).
    rewrite split_on_app by (by repeat split).
    rewrite split_on_app by apply pretty_Z_no_colon.
    rewrite split_on_no_colon by apply pretty_Z_no_colon.
    rewrite bool_decide_eq_false_2 by (intros [Hn|Hn]; by destruct Hn).
    simpl lookup. simpl default. rewrite Hamt, Huser.
    rewrite bool_decide_eq_false_2 by (intros [Hn|Hn]; by destruct Hn).
    by rewrite bool_decide_eq_false_2 by (by intros Hn).
Qed.
End checkout_properties.

Lemma pre_checkout_approves_only_packs_witness :
  0 < cq_total_amount (CheckoutQuery "XTR" (Some "buy:100:7") 100 7).
Proof.
  apply (pre_checkout_approves_only_packs read_decimal
           (CheckoutQuery "XTR" (Some "buy:100:7") 100 7) (World empty_db [])).
  reflexivity.
Defined.

Lemma invoice_passes_pre_checkout_witness :
  pre_checkout read_decimal (CheckoutQuery "XTR" (Some "buy:250:7") 250 7) (World empty_db [])
  = (Return tt, World empty_db [pre_checkout_answer true None]).
Proof.
  destruct (invoice_passes_pre_checkout read_decimal 250 7 (World empty_db []) (World empty_db []))
    as (_ & _ & E); [by_compute|reflexivity|reflexivity|].
  exact E.
Defined.

(** * The stand-alone bot *)

Lemma botpy_get_balance_tell v c st :
  BotPy.get_balance v (BotPy.tell c st) = BotPy.get_balance v st.
Proof. done. Qed.

Lemma botpy_get_balance_set v u b st :
  BotPy.get_balance v (BotPy.set_balance u b st)
  = if decide (v = u) then Z.max b 0 else BotPy.get_balance v st.
Proof.
  unfold BotPy.get_balance, BotPy.set_balance. simpl. rewrite lookup_insert.
  destruct (decide (v = u)) as [->|]; case_decide; done.
Qed.

(** [handle_sell] refuses a sale above the balance and otherwise stores
    the balance less the amount, but not less than 0; other accounts keep
    their balance.  For an amount between 0 and the balance that is the
    balance less the amount.  The amount's sign is not checked: a negative
    amount passes the guard and raises a non-negative balance by its
    size. *)
Theorem sell_guard u amount st :
  (∀ v, v ≠ u → BotPy.get_balance v (BotPy.handle_sell u amount st) = BotPy.get_balance v st)
  ∧ (BotPy.get_balance u st < amount →
     BotPy.user_balances (BotPy.handle_sell u amount st) = BotPy.user_balances st)
  ∧ (amount ≤ BotPy.get_balance u st →
     BotPy.get_balance u (BotPy.handle_sell u amount st)
     = Z.max (BotPy.get_balance u st - amount) 0)
  ∧ (0 ≤ amount ≤ BotPy.get_balance u st →
     BotPy.get_balance u (BotPy.handle_sell u amount st) = BotPy.get_balance u st - amount)
  ∧ (amount < 0 → 0 ≤ BotPy.get_balance u st →
     BotPy.get_balance u (BotPy.handle_sell u amount st) = BotPy.get_balance u st - amount).
Proof.
  unfold BotPy.handle_sell.
  split; [|split; [|split; [|split]]].
  - intros v Hv. case_bool_decide; [done|].
    rewrite !botpy_get_balance_tell, botpy_get_balance_set. by rewrite decide_False.
  - intros Hlow. by rewrite bool_decide_eq_true_2.
  - intros Hok. rewrite bool_decide_eq_false_2 by lia.
    rewrite !botpy_get_balance_tell, botpy_get_balance_set. by rewrite decide_True.
  - intros Hok. rewrite bool_decide_eq_false_2 by lia.
    rewrite !botpy_get_balance_tell, botpy_get_balance_set. rewrite decide_True by done. lia.
  - intros Hneg Hbal. rewrite bool_decide_eq_false_2 by lia.
    rewrite !botpy_get_balance_tell, botpy_get_balance_set. rewrite decide_True by done. lia.
Qed.

Lemma sell_guard_witness :
  BotPy.get_balance 7
    (BotPy.handle_sell 7 (-100) (BotPy.handle_successful_payment 7 50 BotPy.start))
  = 150.
Proof.
  destruct (sell_guard 7 (-100) (BotPy.handle_successful_payment 7 50 BotPy.start))
    as (_ & _ & _ & _ & Hneg).
  rewrite Hneg; [reflexivity|lia|by_compute].
Defined.

Section botpy_properties.
Variable py_int : string → outcome Z.

Lemma botpy_nonneg_set u b st :
  botpy_nonneg st → botpy_nonneg (BotPy.set_balance u b st).
Proof.
  intros Hst v x. unfold BotPy.set_balance. simpl. rewrite lookup_insert.
  case_decide; [intros [= <-]; lia|apply Hst].
Qed.

Lemma botpy_nonneg_handle upd st :
  botpy_nonneg st → botpy_nonneg (BotPy.handle py_int upd st).
Proof.
  intros Hst. destruct upd as [data u|u stars]; simpl.
  - unfold BotPy.handle_callback.
    case_bool_decide; [done|].
    destruct (partition_on colon (default "" data)) as [[action sep] value].
    case_bool_decide; [done|].
    destruct (py_int value) as [amount|[msg|msg]]; [|done|done].
    case_bool_decide; [done|]. case_bool_decide; [|done].
    simpl. unfold BotPy.handle_sell. case_bool_decide; [done|].
    by apply botpy_nonneg_set.
  - by apply botpy_nonneg_set.
Qed.

(** No balance of the stand-alone bot is ever negative: from the empty
    dictionary, after any sequence of callbacks and payments, whatever
    their data and amounts, every stored balance and every balance
    [get_balance] reports is at least 0. *)
Theorem botpy_balances_never_negative us u :
  0 ≤ BotPy.get_balance u (BotPy.handle_all py_int us BotPy.start).
Proof.
  assert (botpy_nonneg (BotPy.handle_all py_int us BotPy.start)) as Hall.
  { unfold BotPy.handle_all. induction us as [|upd us IH] using rev_ind.
    - intros v b. simpl. by rewrite lookup_empty.
    - rewrite foldl_app. simpl. by apply botpy_nonneg_handle. }
  unfold BotPy.get_balance.
  destruct (BotPy.user_balances _ !! u) as [b|] eqn:E; simpl; [by eapply Hall|done].
Qed.

(** A callback changes the balances of the stand-alone bot only as a
    sale: its data reads sell:value with a value [int] accepts, the
    amount is not above the balance, and the new balance is the one
    [set_balance] stores for balance less amount.  Buying, asking for
    the balance and malformed data leave every balance as it was. *)
Theorem botpy_callback_changes_balance_only_by_sale data u st :
  BotPy.user_balances (BotPy.handle_callback py_int data u st).2 = BotPy.user_balances st
  ∨ ∃ value amount,
      partition_on colon (default "" data) = ("sell", String colon "", value)
      ∧ py_int value = Return amount
      ∧ amount ≤ BotPy.get_balance u st
      ∧ BotPy.user_balances (BotPy.handle_callback py_int data u st).2
        = <[u := Z.max (BotPy.get_balance u st - amount) 0]> (BotPy.user_balances st).
Proof.
  unfold BotPy.handle_callback.
  case_bool_decide; [by left|].
  destruct (partition_on colon (default "" data)) as [[action sep] value] eqn:Epart.
  case_bool_decide as Hvalue; [by left|].
  destruct (py_int value) as [amount|[msg|msg]] eqn:Eint; [|by left|by left].
  case_bool_decide; [by left|]. case_bool_decide as Hsell; [|by left].
  simpl. unfold BotPy.handle_sell. case_bool_decide as Hbal; [by left|].
  right. exists value, amount. subst action. split; [|split; [done|split; [lia|done]]].
  f_equal. f_equal.
  assert (∀ s a b c, partition_on colon s = (a, b, c) → c ≠ "" → b = String colon "")
    as Hsep.
  { clear. induction s as [|x s IH]; intros a b c; simpl.
    - intros [= <- <- <-]. done.
    - case_bool_decide; [by intros [= <- <- <-]|].
      destruct (partition_on colon s) as [[a' b'] c']. intros [= <- <- <-]. eauto. }
  by eapply Hsep.
Qed.
End botpy_properties.

Lemma botpy_callback_changes_balance_only_by_sale_witness :
  BotPy.get_balance 7
    (BotPy.handle_callback read_decimal (Some "sell:-100") 7
       (BotPy.handle_successful_payment 7 50 BotPy.start)).2
  = 150.
Proof.
  destruct (botpy_callback_changes_balance_only_by_sale read_decimal (Some "sell:-100") 7
              (BotPy.handle_successful_payment 7 50 BotPy.start))
    as [E|(value & amount & Hpart & Hint & _ & E)].
  - exfalso. apply (f_equal (λ m, m !! 7)) in E. vm_compute in E. discriminate E.
  - vm_compute in Hpart. injection Hpart as <-. vm_compute in Hint. injection Hint as <-.
    unfold BotPy.get_balance at 1. rewrite E. reflexivity.
Defined.
